(** * SIP OPTIONS monitor: a shallow embedding of the probing engine

    Sources embedded: [sip_monitor_en.py], [sip_monitor_ru.py],
    [email_utils.py], [telegram_utils.py].

    Conventions of the embedding.
    - A Python [str] is represented by its UTF-8 encoding, as a [string];
      [s.encode('utf-8')] is then the list of the bytes of [s].
    - [bytes] values read from the network are [list byte].
    - [time.time()] readings are exact rationals ([Q]); every reading is an
      explicit input of the function that performs it.
    - Network, SMTP and HTTP behaviour is an explicit input too (what the
      call returned or which exception it raised).
    - [phone_status] is an insertion-ordered dictionary (association list
      with Python's [dict] semantics). *)

From Stdlib Require Import ZArith NArith QArith Qround Qminmax Lqa.
From Stdlib Require Import List Bool Lia Permutation.
From Stdlib Require Import Strings.Ascii Strings.String Strings.Byte.
From Stdlib Require Import DecimalString.
Import ListNotations.

Open Scope string_scope.

(* ===================================================================== *)
(** ** Python built-ins used by the scripts *)
(* ===================================================================== *)

Module Py.

Definition bytes := list byte.

(** [s.encode('utf-8')] under the representation of [str] chosen above. *)
Definition encode_utf8 (s : string) : bytes := list_byte_of_string s.

Definition code (b : byte) : N := Byte.to_N b.

Definition chr (b : byte) : string := String (ascii_of_byte b) EmptyString.

Definition is_continuation (b : byte) : bool :=
  ((128 <=? code b) && (code b <? 192))%N.

(** Second byte of a three-byte sequence: a continuation byte, and neither
    an overlong form ([E0 80..9F]) nor a surrogate ([ED A0..BF]). *)
Definition second_of_3 (b1 b2 : byte) : bool :=
  is_continuation b2
  && negb ((code b1 =? 224)%N && (code b2 <? 160)%N)
  && negb ((code b1 =? 237)%N && (160 <=? code b2)%N).

(** Second byte of a four-byte sequence: a continuation byte, neither
    overlong ([F0 80..8F]) nor above U+10FFFF ([F4 90..BF]). *)
Definition second_of_4 (b1 b2 : byte) : bool :=
  is_continuation b2
  && negb ((code b1 =? 240)%N && (code b2 <? 144)%N)
  && negb ((code b1 =? 244)%N && (144 <=? code b2)%N).

(** [data.decode('utf-8', errors='ignore')]: the well-formed sequences are
    kept, every maximal ill-formed part is dropped, decoding resumes at the
    byte that broke the sequence. *)
Fixpoint decode_utf8_ignore (data : bytes) : string :=
  match data with
  | [] => ""
  | b1 :: r1 =>
    if (code b1 <? 128)%N then chr b1 ++ decode_utf8_ignore r1
    else if (code b1 <? 194)%N then decode_utf8_ignore r1
    else if (code b1 <? 224)%N then
      match r1 with
      | [] => ""
      | b2 :: r2 =>
        if is_continuation b2
        then chr b1 ++ chr b2 ++ decode_utf8_ignore r2
        else decode_utf8_ignore r1
      end
    else if (code b1 <? 240)%N then
      match r1 with
      | [] => ""
      | b2 :: r2 =>
        if second_of_3 b1 b2 then
          match r2 with
          | [] => ""
          | b3 :: r3 =>
            if is_continuation b3
            then chr b1 ++ chr b2 ++ chr b3 ++ decode_utf8_ignore r3
            else decode_utf8_ignore r2
          end
        else decode_utf8_ignore r1
      end
    else if (code b1 <? 245)%N then
      match r1 with
      | [] => ""
      | b2 :: r2 =>
        if second_of_4 b1 b2 then
          match r2 with
          | [] => ""
          | b3 :: r3 =>
            if is_continuation b3 then
              match r3 with
              | [] => ""
              | b4 :: r4 =>
                if is_continuation b4
                then chr b1 ++ chr b2 ++ chr b3 ++ chr b4
                     ++ decode_utf8_ignore r4
                else decode_utf8_ignore r3
              end
            else decode_utf8_ignore r2
          end
        else decode_utf8_ignore r1
      end
    else decode_utf8_ignore r1
  end.

(** Truth value of a [str]: non-empty. *)
Definition truthy (s : string) : bool :=
  match s with EmptyString => false | String _ _ => true end.

Definition ord (c : ascii) : N := N_of_ascii c.

(** One-byte line boundaries of [str.splitlines]:
    LF, VT, FF, CR, FS, GS, RS. *)
Definition is_linebreak1 (c : ascii) : bool :=
  ((ord c =? 10) || (ord c =? 11) || (ord c =? 12) || (ord c =? 13)
   || (ord c =? 28) || (ord c =? 29) || (ord c =? 30))%N.

Definition snoc (s : string) (c : ascii) : string := s ++ String c "".

(** [str.splitlines()] (line ends dropped).  [cur] is the line being read.
    Besides the one-byte boundaries, U+0085 (bytes C2 85) and U+2028,
    U+2029 (bytes E2 80 A8, E2 80 A9) end a line, and CR LF counts once. *)
Fixpoint splitlines_from (cur : string) (s : string) : list string :=
  match s with
  | EmptyString => if truthy cur then [cur] else []
  | String c r1 =>
    if is_linebreak1 c then
      cur :: match r1 with
             | String c2 r2 =>
               if ((ord c =? 13) && (ord c2 =? 10))%N
               then splitlines_from "" r2
               else splitlines_from "" r1
             | EmptyString => splitlines_from "" r1
             end
    else
      match r1 with
      | String c2 r2 =>
        if ((ord c =? 194) && (ord c2 =? 133))%N
        then cur :: splitlines_from "" r2
        else
          match r2 with
          | String c3 r3 =>
            if ((ord c =? 226) && (ord c2 =? 128)
                && ((ord c3 =? 168) || (ord c3 =? 169)))%N
            then cur :: splitlines_from "" r3
            else splitlines_from (snoc cur c) r1
          | EmptyString => splitlines_from (snoc cur c) r1
          end
      | EmptyString => splitlines_from (snoc cur c) r1
      end
  end.

Definition splitlines (s : string) : list string := splitlines_from "" s.

(** [needle in hay] for strings. *)
Fixpoint contains (needle hay : string) : bool :=
  String.prefix needle hay
  || match hay with
     | EmptyString => false
     | String _ hay' => contains needle hay'
     end.

(** [str(n)] for an [int]. *)
Definition str_int (z : Z) : string := NilZero.string_of_int (Z.to_int z).

Fixpoint zero_fill (missing : nat) (s : string) : string :=
  match missing with
  | O => s
  | S k => String "0" (zero_fill k s)
  end.

(** [format(z, '02d')]: zeros are inserted after the sign until the whole
    field is two characters wide. *)
Definition format_02d (z : Z) : string :=
  if (z <? 0)%Z then
    let digits := str_int (Z.abs z) in
    String "-" (zero_fill (1 - String.length digits) digits)
  else
    let digits := str_int z in
    zero_fill (2 - String.length digits) digits.

(** [divmod(x, y)] on floats, read on exact rationals:
    the floor of the quotient and the matching remainder. *)
Definition divmod (x y : Q) : Q * Q :=
  let q := inject_Z (Qfloor (x / y)) in (q, x - q * y)%Q.

(** [int(x)]: truncation toward zero. *)
Definition int (x : Q) : Z :=
  if Qle_bool 0 x then Qfloor x else Qceiling x.

(** [max(0, x)]: the first argument unless the second is strictly larger. *)
Definition max0 (x : Q) : Q := if Qlt_le_dec 0 x then x else 0%Q.

(** [sep.join(lines)]. *)
Fixpoint join (sep : string) (lines : list string) : string :=
  match lines with
  | [] => ""
  | [l] => l
  | l :: rest => l ++ sep ++ join sep rest
  end.

(** [s[:n]]. *)
Definition take (n : nat) (s : string) : string := String.substring 0 n s.

(** [s[a:b]] for [a <= b]. *)
Definition slice (a b : nat) (s : string) : string :=
  String.substring a (b - a) s.

End Py.

(* ===================================================================== *)
(** ** Data model shared by the two scripts *)
(* ===================================================================== *)

(** The three state labels ['unknown'], ['ok'], ['failed']. *)
Inductive status : Type := unknown | ok | failed.

Definition status_eqb (a b : status) : bool :=
  match a, b with
  | unknown, unknown | ok, ok | failed, failed => true
  | _, _ => false
  end.

(** The per-target record [{'state': ..., 'since': ...}];
    [since] is [None] or a [time.time()] reading. *)
Record status_info : Type := mk_info { state : status; since : option Q }.

(** Python's insertion-ordered [dict] with [str] keys. *)
Module Dict.

Definition t (V : Type) : Type := list (string * V).

(** [d.get(k)]. *)
Fixpoint get {V} (k : string) (d : t V) : option V :=
  match d with
  | [] => None
  | (k', v) :: rest => if String.eqb k k' then Some v else get k rest
  end.

(** [d.get(k, default)]. *)
Definition get_default {V} (k : string) (default : V) (d : t V) : V :=
  match get k d with Some v => v | None => default end.

(** [d[k] = v]: an existing key keeps its position, a new one goes last. *)
Fixpoint set {V} (k : string) (v : V) (d : t V) : t V :=
  match d with
  | [] => [(k, v)]
  | (k', v') :: rest =>
    if String.eqb k k' then (k', v) :: rest else (k', v') :: set k v rest
  end.

(** [d.items()], in insertion order. *)
Definition items {V} (d : t V) : list (string * V) := d.

Definition keys {V} (d : t V) : list string := map fst d.

End Dict.

(** Exceptions below [Exception] that the handlers of the scripts tell
    apart, by the class of the raised object. *)
Inductive exn : Type :=
| gaierror          (* socket.gaierror, a subclass of OSError *)
| socket_timeout    (* socket.timeout, a subclass of OSError *)
| os_error          (* any other OSError: SMTP and requests errors too *)
| index_error       (* IndexError *)
| other_exception.  (* any other subclass of Exception *)

(** The classes named in [except] clauses. *)
Inductive exc_class : Type :=
| C_gaierror | C_timeout | C_OSError | C_IndexError | C_Exception.

Definition isinstance (e : exn) (c : exc_class) : bool :=
  match c, e with
  | C_gaierror, gaierror => true
  | C_timeout, socket_timeout => true
  | C_OSError, (gaierror | socket_timeout | os_error) => true
  | C_IndexError, index_error => true
  | C_Exception, _ => true
  | _, _ => false
  end.

(** Messages handed to [debug_print] or [print] that the claims talk about.
    The other progress messages only format the wall clock and are left
    out of the trace. *)
Inductive log_line : Type :=
| StatusChange (target_ip : string) (previous_state current : status)
               (new_timestamp : Q)
| EmailSent (subject : string)
| EmailFailed (e : exn)
| TelegramNotConfigured
| TelegramSent
| TelegramRejected (response_text : string)
| TelegramException (e : exn).

(** What a run does to the outside. *)
Inductive event : Type :=
| DebugPrint (l : log_line)   (* debug_print(...): printed when DEBUG is set *)
| PrintLine (l : log_line)    (* print(...) *)
| Sendto (data : Py.bytes) (ip : string) (port : Z)
| SockClose
| Sendmail (tls_auth : bool) (sender : option string)
           (recipient : option string) (subject body : string)
| HttpPost (chat_id : string) (text : string)
| Sleep (seconds : Q).

(** The module globals a run can read and write, and its trace. *)
Record world : Type := mk_world {
  phone_status : Dict.t status_info;
  out : list event
}.

(** *** Runs that may raise *)

Inductive result (A : Type) : Type :=
| Return (a : A)
| Raise (e : exn).
Arguments Return {A} a.
Arguments Raise {A} e.

Definition M (A : Type) : Type := world -> result A * world.

Definition ret {A} (a : A) : M A := fun w => (Return a, w).

Definition raise {A} (e : exn) : M A := fun w => (Raise e, w).

Definition bind {A B} (m : M A) (k : A -> M B) : M B :=
  fun w =>
    match m w with
    | (Return a, w') => k a w'
    | (Raise e, w') => (Raise e, w')
    end.

Declare Scope run_scope.
Delimit Scope run_scope with run.
Notation "x <- m ;; k" := (bind m (fun x => k))
  (at level 61, m at next level, right associativity) : run_scope.
Notation "m ;; k" := (bind m (fun _ => k))
  (at level 61, right associativity) : run_scope.
Open Scope run_scope.

Definition emit (ev : event) : M unit :=
  fun w => (Return tt, mk_world (phone_status w) (out w ++ [ev])).

Definition read_status : M (Dict.t status_info) :=
  fun w => (Return (phone_status w), w).

Definition write_status (d : Dict.t status_info) : M unit :=
  fun w => (Return tt, mk_world d (out w)).

Definition when (b : bool) (m : M unit) : M unit := if b then m else ret tt.

(** [try: body  except C1: h1  except C2: h2 ...]: the first clause whose
    class the raised exception is an instance of handles it; with none, the
    exception goes on. *)
Definition try_except {A} (body : M A)
    (clauses : list (exc_class * (exn -> M A))) : M A :=
  fun w =>
    match body w with
    | (Return a, w') => (Return a, w')
    | (Raise e, w') =>
      match find (fun c => isinstance e (fst c)) clauses with
      | Some (_, handler) => handler e w'
      | None => (Raise e, w')
      end
    end.

(** [try: body  finally: cleanup]. *)
Definition try_finally {A} (body : M A) (cleanup : M unit) : M A :=
  fun w =>
    match body w with
    | (r, w') =>
      match cleanup w' with
      | (Return _, w'') => (r, w'')
      | (Raise e, w'') => (Raise e, w'')
      end
    end.

(** [debug_print] (the same helper in all four files). *)
Definition debug_print (l : log_line) : M unit := emit (DebugPrint l).

(** What reaches standard output: [debug_print] prints only when [DEBUG]. *)
Definition printed (DEBUG : bool) (tr : list event) : list log_line :=
  flat_map (fun ev =>
              match ev with
              | DebugPrint l => if DEBUG then [l] else []
              | PrintLine l => [l]
              | _ => []
              end) tr.

(** Truth value of an optional string ([None] and [''] are false). *)
Definition truthy_opt (s : option string) : bool :=
  match s with Some s => Py.truthy s | None => false end.

(** [s == lit] for an optional string and a literal. *)
Definition opt_eqb (s : option string) (lit : string) : bool :=
  match s with Some s => String.eqb s lit | None => false end.

(* ===================================================================== *)
(** ** [email_utils.py] *)
(* ===================================================================== *)

Module email_utils.

(** The settings read from the environment when the module is loaded. *)
Record settings : Type := {
  SMTP_SERVER : option string;
  SMTP_PORT : Z;
  SMTP_USERNAME : option string;
  SMTP_PASSWORD : option string;
  SENDER_EMAIL : option string;
  RECIPIENT_EMAIL : option string
}.

(** What the SMTP session did: ran to the end, or raised. *)
Inductive smtp_outcome : Type :=
| Delivered
| SmtpRaises (e : exn).

(** The [with smtplib.SMTP(...) as server: ...] block. *)
Definition smtp_session (cfg : settings) (tls_auth : bool)
    (subject body : string) (smtp : smtp_outcome) : M unit :=
  match smtp with
  | Delivered =>
    emit (Sendmail tls_auth (SENDER_EMAIL cfg) (RECIPIENT_EMAIL cfg)
                   subject body)
  | SmtpRaises e => raise e
  end.

(** [SMTP_PASSWORD and SMTP_PASSWORD != "" and SMTP_USERNAME]. *)
Definition with_tls_and_login (cfg : settings) : bool :=
  truthy_opt (SMTP_PASSWORD cfg)
  && negb (opt_eqb (SMTP_PASSWORD cfg) "")
  && truthy_opt (SMTP_USERNAME cfg).

(** The [MIMEText] message is built before the [try] statement; building
    it is taken not to raise. *)
Definition send_email_alert (cfg : settings) (smtp : smtp_outcome)
    (subject body : string) : M unit :=
  try_except
    ((if with_tls_and_login cfg
      then smtp_session cfg true subject body smtp
      else smtp_session cfg false subject body smtp) ;;
     debug_print (EmailSent subject))
    [(C_Exception, fun e => debug_print (EmailFailed e))].

End email_utils.

(* ===================================================================== *)
(** ** [telegram_utils.py] *)
(* ===================================================================== *)

Module telegram_utils.

Record settings : Type := {
  TELEGRAM_BOT_TOKEN : option string;
  TELEGRAM_CHAT_ID : option string
}.

(** What [requests.post] did: returned a response, or raised. *)
Inductive http_outcome : Type :=
| Response (status_code : Z) (text : string)
| HttpRaises (e : exn).

Definition requests_post (chat_id : string) (text : string)
    (http : http_outcome) : M (Z * string) :=
  match http with
  | Response code body => emit (HttpPost chat_id text) ;; ret (code, body)
  | HttpRaises e => raise e
  end.

Definition send_telegram_alert (cfg : settings) (http : http_outcome)
    (message : string) : M unit :=
  if negb (truthy_opt (TELEGRAM_BOT_TOKEN cfg))
     || negb (truthy_opt (TELEGRAM_CHAT_ID cfg))
     || opt_eqb (TELEGRAM_BOT_TOKEN cfg) "YOUR_BOT_TOKEN"
     || opt_eqb (TELEGRAM_CHAT_ID cfg) "YOUR_CHAT_ID"
  then debug_print TelegramNotConfigured
  else
    try_except
      (response <- requests_post
                     (match TELEGRAM_CHAT_ID cfg with
                      | Some c => c | None => "" end)
                     message http ;;
       if (fst response =? 200)%Z
       then emit (PrintLine TelegramSent)
       else emit (PrintLine (TelegramRejected (snd response))))
      [(C_Exception, fun e => emit (PrintLine (TelegramException e)))].

End telegram_utils.

(** Everything outside the process that one report may meet. *)
Record outside : Type := {
  mail_cfg : email_utils.settings;
  smtp : email_utils.smtp_outcome;
  telegram_cfg : telegram_utils.settings;
  http : telegram_utils.http_outcome
}.

(* ===================================================================== *)
(** ** The standard-library calls of the probe: [uuid], [socket], [time] *)
(* ===================================================================== *)

Module uuid.

(** A UUID is its 128-bit integer ([UUID.int]). *)
Definition t : Type := N.

Definition in_range (u : t) : Prop := (u < 2 ^ 128)%N.

Definition hex_digit (d : N) : ascii :=
  match String.get (N.to_nat d) "0123456789abcdef" with
  | Some c => c
  | None => "0"%char
  end.

(** The last [digits] hexadecimal digits of [n], most significant first:
    ['%032x' % n] when [digits] is 32 and [n] is in range. *)
Fixpoint hex (digits : nat) (n : N) : string :=
  match digits with
  | O => ""
  | S k => hex k (n / 16) ++ String (hex_digit (n mod 16)) ""
  end.

(** The groups of 8-4-4-4-12 digits of the 32-digit [h]. *)
Definition hyphenate (h : string) : string :=
  Py.slice 0 8 h ++ "-" ++ Py.slice 8 12 h ++ "-" ++ Py.slice 12 16 h
  ++ "-" ++ Py.slice 16 20 h ++ "-" ++ Py.slice 20 32 h.

(** [str(u)]. *)
Definition str (u : t) : string := hyphenate (hex 32 u).

End uuid.

Module socket.

(** What the network stack answers to the calls of one probe, in the order
    of the calls: [None] means the call returned. *)
Record behaviour : Type := {
  on_socket : option exn;
  on_sendto : option exn;
  on_settimeout : option exn;
  on_recvfrom : exn + (Py.bytes * (string * Z))
}.

Definition call (answer : option exn) : M unit :=
  match answer with
  | None => ret tt
  | Some e => raise e
  end.

Definition socket (net : behaviour) : M unit := call (on_socket net).

Definition sendto (net : behaviour) (data : Py.bytes) (ip : string)
    (port : Z) : M unit :=
  call (on_sendto net) ;; emit (Sendto data ip port).

Definition settimeout (net : behaviour) : M unit :=
  call (on_settimeout net).

Definition recvfrom (net : behaviour) : M (Py.bytes * (string * Z)) :=
  match on_recvfrom net with
  | inl e => raise e
  | inr datagram => ret datagram
  end.

(** [sock] is bound once [socket.socket] has returned. *)
Definition created (net : behaviour) : bool :=
  match on_socket net with None => true | Some _ => false end.

End socket.

(** [l[0]]. *)
Definition subscript0 (l : list string) : M string :=
  match l with
  | [] => raise index_error
  | x :: _ => ret x
  end.

Definition CRLF : string := String "013"%char (String "010"%char "").

Definition LF : string := String "010"%char "".

(** The inputs of one [send_options] run: the three UUIDs drawn, the
    behaviour of the network, and the [time.time()] reading taken if the
    state changes. *)
Record probe_input : Type := {
  draws : uuid.t * uuid.t * uuid.t;
  net : socket.behaviour;
  change_time : Q
}.

(** The inputs of one pass of the [while True] body. *)
Record cycle_input : Type := {
  finish_order : list string;           (* the targets, as their threads ran *)
  probe_of : string -> probe_input;
  start_time : Q;                        (* time.time() before the threads *)
  joined_time : Q;                       (* time.time() after the joins *)
  current_time : Q;                      (* time.time() of the report check *)
  strftime_local : Q -> string;          (* '%Y-%m-%d %H:%M:%S' local time *)
  subject_stamp : string;                (* strftime('%Y-%m-%d %H:%M') *)
  world_outside : outside
}.

(** Truth value of [failed_since]: [None] and [0.0] are false. *)
Definition truthy_time (t : option Q) : bool :=
  match t with
  | Some t => negb (Qeq_bool t 0)
  | None => false
  end.

Definition time_or_zero (t : option Q) : Q :=
  match t with Some t => t | None => 0%Q end.

(* ===================================================================== *)
(** ** [sip_monitor_en.py] *)
(* ===================================================================== *)

Module EN.

(** *** Settings *)
Definition TARGET_IPS : list string := ["172.16.31.144"; "192.168.13.101"].
Definition SOURCE_IP : string := "192.168.1.100".
Definition SOURCE_PORT : Z := 5084.
Definition TARGET_PORT : Z := 5060.
Definition INTERVAL : Q := 10.
Definition USER_AGENT : string := "Python SIP Monitor".
Definition RECEIVE_TIMEOUT : Q := 2.
Definition ENABLE_EMAIL_ALERTS : bool := true.
Definition ENABLE_TELEGRAM_ALERTS : bool := true.

(** *** [create_options_message] *)
Definition call_id_of (u : uuid.t) : string := uuid.str u.
Definition branch_of (u : uuid.t) : string :=
  "z9hG4bK" ++ Py.take 8 (uuid.str u).
Definition tag_of (u : uuid.t) : string := Py.take 8 (uuid.str u).

Definition create_options_message (target_ip : string) (target_port : Z)
    (source_ip : string) (source_port : Z)
    (drawn : uuid.t * uuid.t * uuid.t) : Py.bytes :=
  let '(u1, u2, u3) := drawn in
  let call_id := call_id_of u1 in
  let branch := branch_of u2 in
  let tag := tag_of u3 in
  let target := target_ip ++ ":" ++ Py.str_int target_port in
  let source := source_ip ++ ":" ++ Py.str_int source_port in
  let message :=
    "OPTIONS sip:monitor@" ++ target ++ " SIP/2.0" ++ CRLF
    ++ "Via: SIP/2.0/UDP " ++ source ++ ";branch=" ++ branch ++ ";rport"
    ++ CRLF
    ++ "Max-Forwards: 70" ++ CRLF
    ++ "From: <sip:monitor@" ++ source ++ ">;tag=" ++ tag ++ CRLF
    ++ "To: <sip:monitor@" ++ target ++ ">" ++ CRLF
    ++ "Contact: <sip:monitor@" ++ source ++ ">" ++ CRLF
    ++ "Call-ID: " ++ call_id ++ CRLF
    ++ "CSeq: 1 OPTIONS" ++ CRLF
    ++ "User-Agent: " ++ USER_AGENT ++ CRLF
    ++ "Accept: application/sdp" ++ CRLF
    ++ "Content-Length: 0" ++ CRLF
    ++ CRLF in
  Py.encode_utf8 message.

(** *** [send_options] *)

(** The [try] statement of [send_options]; its value is the
    [current_run_status] it leaves, which starts as ['unknown']. *)
Definition probe (target_ip : string) (options_message_bytes : Py.bytes)
    (net : socket.behaviour) : M status :=
  let current_run_status := unknown in
  try_finally
    (try_except
       (socket.socket net ;;
        socket.sendto net options_message_bytes target_ip TARGET_PORT ;;
        socket.settimeout net ;;
        try_except
          (datagram <- socket.recvfrom net ;;
           let '(data, addr) := datagram in
           if String.eqb (fst addr) target_ip then
             try_except
               (let response := Py.decode_utf8_ignore data in
                status_line <-
                  (if Py.truthy response
                   then subscript0 (Py.splitlines response)
                   else ret "EMPTY RESPONSE") ;;
                if Py.contains "SIP/2.0 200 OK" status_line
                then ret ok
                else ret failed)
               [(C_IndexError, fun _ => ret failed);
                (C_Exception, fun _ => ret failed)]
           else ret failed)
          [(C_timeout, fun _ => ret failed);
           (C_Exception, fun _ => ret failed)])
       [(C_gaierror, fun _ => ret failed);
        (C_OSError, fun _ => ret failed);
        (C_Exception, fun _ => ret failed)])
    (when (socket.created net) (emit SockClose)).

(** The update of the global dictionary that ends [send_options]. *)
Definition update_status (target_ip : string) (current_run_status : status)
    (now : Q) : M unit :=
  d <- read_status ;;
  let previous_status_info :=
    Dict.get_default target_ip (mk_info unknown None) d in
  let previous_state := state previous_status_info in
  if negb (status_eqb current_run_status previous_state) then
    let new_timestamp := now in
    debug_print (StatusChange target_ip previous_state current_run_status
                              new_timestamp) ;;
    write_status
      (Dict.set target_ip (mk_info current_run_status (Some new_timestamp))
                d)
  else ret tt.

Definition send_options (target_ip source_ip_actual : string)
    (inp : probe_input) : M unit :=
  let options_message_str :=
    string_of_list_byte
      (create_options_message target_ip TARGET_PORT source_ip_actual
                              SOURCE_PORT (draws inp)) in
  let options_message_bytes := Py.encode_utf8 options_message_str in
  current_run_status <- probe target_ip options_message_bytes (net inp) ;;
  update_status target_ip current_run_status (change_time inp).

(** *** The two definitions that end the file

    [def send_telegram_alert] and [def send_email_alert] at the end of
    the module bind these two global names again, after the [import]
    lines and before [monitor_loop()] is called: when [notify_alert]
    runs, the names denote these bodies, which are [pass]. *)
Definition send_telegram_alert (message : string) : M unit := ret tt.

Definition send_email_alert (subject body : string) : M unit := ret tt.

(** *** [notify_alert] *)
Definition notify_alert (subject body : string)
    (telegram_message : option string) : M unit :=
  when ENABLE_EMAIL_ALERTS (send_email_alert subject body) ;;
  match telegram_message with
  | Some message =>
    when (ENABLE_TELEGRAM_ALERTS && Py.truthy message)
         (send_telegram_alert message)
  | None => ret tt
  end.

(** *** [monitor_loop] *)

Definition initial_status : Dict.t status_info :=
  fold_left (fun d ip => Dict.set ip (mk_info unknown None) d)
            TARGET_IPS [].

(** The source address written in the headers; [autodetected] is what the
    transient socket reported, or [None] when it raised [OSError]. *)
Definition source_ip_actual (autodetected : option string) : string :=
  if String.eqb SOURCE_IP "0.0.0.0"
     || String.eqb SOURCE_IP "ВАШ_ЛОКАЛЬНЫЙ_IP"
  then match autodetected with
       | Some ip => ip
       | None => "0.0.0.0"
       end
  else SOURCE_IP.

Definition wait_time (elapsed_time : Q) : Q :=
  Py.max0 (INTERVAL - elapsed_time).

Definition report_due (REPORT_INTERVAL_SECONDS : Z)
    (current_time last_report_time : Q) : bool :=
  Qle_bool (inject_Z REPORT_INTERVAL_SECONDS)
           (current_time - last_report_time).

Definition duration_str (duration_seconds : Q) : string :=
  let '(m, s) := Py.divmod duration_seconds 60 in
  let '(h, m) := Py.divmod m 60 in
  Py.format_02d (Py.int h) ++ ":" ++ Py.format_02d (Py.int m) ++ ":"
  ++ Py.format_02d (Py.int s).

(** The lines one item of [phone_status] adds to the report. *)
Definition report_line (strftime_local : Q -> string) (current_time : Q)
    (item : string * status_info) : list string :=
  let '(ip, status_info) := item in
  if status_eqb (state status_info) failed then
    let failed_since := since status_info in
    if truthy_time failed_since then
      let duration_seconds := (current_time - time_or_zero failed_since)%Q in
      let failed_since_str := strftime_local (time_or_zero failed_since) in
      ["- " ++ ip ++ ": unavailable since " ++ failed_since_str
       ++ " (duration: " ++ duration_str duration_seconds ++ ")"]
    else ["- " ++ ip ++ ": unavailable (exact failure time unknown)"]
  else [].

Definition failed_phones_report_lines (strftime_local : Q -> string)
    (current_time : Q) (d : Dict.t status_info) : list string :=
  flat_map (report_line strftime_local current_time) (Dict.items d).

(** The report logic of one pass; its value is the new
    [last_report_time]. *)
Definition report_logic (REPORT_INTERVAL_SECONDS : Z) (c : cycle_input)
    (last_report_time : Q) : M Q :=
  if report_due REPORT_INTERVAL_SECONDS (current_time c) last_report_time
  then
    d <- read_status ;;
    let lines :=
      failed_phones_report_lines (strftime_local c) (current_time c) d in
    match lines with
    | _ :: _ =>
      let subject :=
        "SIP Monitor Report: Unavailable phones (" ++ subject_stamp c
        ++ ")" in
      let body :=
        "The following SIP phones are currently unavailable:" ++ LF ++ LF
        ++ Py.join LF lines ++ LF ++ LF ++ "The monitor continues to run." in
      let telegram_msg :=
        "SIP Monitor: Unavailable phones:" ++ LF ++ Py.join LF lines in
      notify_alert subject body (Some telegram_msg)
    | [] => ret tt
    end ;;
    ret (current_time c)
  else ret last_report_time.

(** The threads of one pass.  Each thread runs [send_options] for its own
    target and writes its own key of [phone_status]; the runs are taken one
    after the other, in the order given. *)
Fixpoint run_probes (source_ip : string) (order : list string)
    (probe_of : string -> probe_input) : M unit :=
  match order with
  | [] => ret tt
  | target_ip :: rest =>
    send_options target_ip source_ip (probe_of target_ip) ;;
    run_probes source_ip rest probe_of
  end.

(** One pass of the [while True] body. *)
Definition cycle (REPORT_INTERVAL_SECONDS : Z) (source_ip : string)
    (c : cycle_input) (last_report_time : Q) : M Q :=
  run_probes source_ip (finish_order c) (probe_of c) ;;
  let elapsed_time := (joined_time c - start_time c)%Q in
  let wait_time := wait_time elapsed_time in
  last_report_time' <-
    report_logic REPORT_INTERVAL_SECONDS c last_report_time ;;
  when (if Qlt_le_dec 0 wait_time then true else false)
       (emit (Sleep wait_time)) ;;
  ret last_report_time'.

Fixpoint cycles (REPORT_INTERVAL_SECONDS : Z) (source_ip : string)
    (passes : list cycle_input) (last_report_time : Q) : M Q :=
  match passes with
  | [] => ret last_report_time
  | c :: rest =>
    last_report_time' <-
      cycle REPORT_INTERVAL_SECONDS source_ip c last_report_time ;;
    cycles REPORT_INTERVAL_SECONDS source_ip rest last_report_time'
  end.

(** [monitor_loop], cut after the given passes. *)
Definition monitor_loop (REPORT_INTERVAL_SECONDS : Z)
    (autodetected : option string) (started : Q)
    (passes : list cycle_input) : M Q :=
  write_status initial_status ;;
  let last_report_time := started in
  cycles REPORT_INTERVAL_SECONDS (source_ip_actual autodetected) passes
         last_report_time.

End EN.

(* ===================================================================== *)
(** ** [sip_monitor_ru.py] *)
(* ===================================================================== *)

Module RU.

(** *** Settings *)
Definition TARGET_IPS : list string := ["172.16.31.144"; "192.168.13.101"].
Definition SOURCE_IP : string := "192.168.1.100".
Definition SOURCE_PORT : Z := 5084.
Definition TARGET_PORT : Z := 5060.
Definition INTERVAL : Q := 10.
Definition USER_AGENT : string := "Python SIP Monitor".
Definition RECEIVE_TIMEOUT : Q := 2.
Definition ENABLE_EMAIL_ALERTS : bool := true.
Definition ENABLE_TELEGRAM_ALERTS : bool := true.

(** *** [create_options_message] *)
Definition call_id_of (u : uuid.t) : string := uuid.str u.
Definition branch_of (u : uuid.t) : string :=
  "z9hG4bK" ++ Py.take 8 (uuid.str u).
Definition tag_of (u : uuid.t) : string := Py.take 8 (uuid.str u).

Definition create_options_message (target_ip : string) (target_port : Z)
    (source_ip : string) (source_port : Z)
    (drawn : uuid.t * uuid.t * uuid.t) : Py.bytes :=
  let '(u1, u2, u3) := drawn in
  let call_id := call_id_of u1 in
  let branch := branch_of u2 in
  let tag := tag_of u3 in
  let target := target_ip ++ ":" ++ Py.str_int target_port in
  let source := source_ip ++ ":" ++ Py.str_int source_port in
  let message :=
    "OPTIONS sip:monitor@" ++ target ++ " SIP/2.0" ++ CRLF
    ++ "Via: SIP/2.0/UDP " ++ source ++ ";branch=" ++ branch ++ ";rport"
    ++ CRLF
    ++ "Max-Forwards: 70" ++ CRLF
    ++ "From: <sip:monitor@" ++ source ++ ">;tag=" ++ tag ++ CRLF
    ++ "To: <sip:monitor@" ++ target ++ ">" ++ CRLF
    ++ "Contact: <sip:monitor@" ++ source ++ ">" ++ CRLF
    ++ "Call-ID: " ++ call_id ++ CRLF
    ++ "CSeq: 1 OPTIONS" ++ CRLF
    ++ "User-Agent: " ++ USER_AGENT ++ CRLF
    ++ "Accept: application/sdp" ++ CRLF
    ++ "Content-Length: 0" ++ CRLF
    ++ CRLF in
  Py.encode_utf8 message.

(** *** [send_options] *)

(** The [try] statement of [send_options]; its value is the
    [current_run_status] it leaves, which starts as ['unknown']. *)
Definition probe (target_ip : string) (options_message_bytes : Py.bytes)
    (net : socket.behaviour) : M status :=
  let current_run_status := unknown in
  try_finally
    (try_except
       (socket.socket net ;;
        socket.sendto net options_message_bytes target_ip TARGET_PORT ;;
        socket.settimeout net ;;
        try_except
          (datagram <- socket.recvfrom net ;;
           let '(data, addr) := datagram in
           if String.eqb (fst addr) target_ip then
             try_except
               (let response := Py.decode_utf8_ignore data in
                status_line <-
                  (if Py.truthy response
                   then subscript0 (Py.splitlines response)
                   else ret "ПУСТОЙ ОТВЕТ") ;;
                if Py.contains "SIP/2.0 200 OK" status_line
                then ret ok
                else ret failed)
               [(C_IndexError, fun _ => ret failed);
                (C_Exception, fun _ => ret failed)]
           else ret failed)
          [(C_timeout, fun _ => ret failed);
           (C_Exception, fun _ => ret failed)])
       [(C_gaierror, fun _ => ret failed);
        (C_OSError, fun _ => ret failed);
        (C_Exception, fun _ => ret failed)])
    (when (socket.created net) (emit SockClose)).

(** The update of the global dictionary that ends [send_options]. *)
Definition update_status (target_ip : string) (current_run_status : status)
    (now : Q) : M unit :=
  d <- read_status ;;
  let previous_status_info :=
    Dict.get_default target_ip (mk_info unknown None) d in
  let previous_state := state previous_status_info in
  if negb (status_eqb current_run_status previous_state) then
    let new_timestamp := now in
    debug_print (StatusChange target_ip previous_state current_run_status
                              new_timestamp) ;;
    write_status
      (Dict.set target_ip (mk_info current_run_status (Some new_timestamp))
                d)
  else ret tt.

Definition send_options (target_ip source_ip_actual : string)
    (inp : probe_input) : M unit :=
  let options_message_str :=
    string_of_list_byte
      (create_options_message target_ip TARGET_PORT source_ip_actual
                              SOURCE_PORT (draws inp)) in
  let options_message_bytes := Py.encode_utf8 options_message_str in
  current_run_status <- probe target_ip options_message_bytes (net inp) ;;
  update_status target_ip current_run_status (change_time inp).

(** *** The imported sinks

    [from email_utils import send_email_alert] and
    [from telegram_utils import send_telegram_alert]: nothing in this file
    binds the two names again. *)
Definition send_telegram_alert (o : outside) (message : string) : M unit :=
  telegram_utils.send_telegram_alert (telegram_cfg o) (http o) message.

Definition send_email_alert (o : outside) (subject body : string)
    : M unit :=
  email_utils.send_email_alert (mail_cfg o) (smtp o) subject body.

(** *** [notify_alert] *)
Definition notify_alert (o : outside) (subject body : string)
    (telegram_message : option string) : M unit :=
  when ENABLE_EMAIL_ALERTS (send_email_alert o subject body) ;;
  match telegram_message with
  | Some message =>
    when (ENABLE_TELEGRAM_ALERTS && Py.truthy message)
         (send_telegram_alert o message)
  | None => ret tt
  end.

(** *** [monitor_loop] *)

Definition initial_status : Dict.t status_info :=
  fold_left (fun d ip => Dict.set ip (mk_info unknown None) d)
            TARGET_IPS [].

(** The source address written in the headers; [autodetected] is what the
    transient socket reported, or [None] when it raised [OSError]. *)
Definition source_ip_actual (autodetected : option string) : string :=
  if String.eqb SOURCE_IP "0.0.0.0"
     || String.eqb SOURCE_IP "ВАШ_ЛОКАЛЬНЫЙ_IP"
  then match autodetected with
       | Some ip => ip
       | None => "0.0.0.0"
       end
  else SOURCE_IP.

Definition wait_time (elapsed_time : Q) : Q :=
  Py.max0 (INTERVAL - elapsed_time).

Definition report_due (REPORT_INTERVAL_SECONDS : Z)
    (current_time last_report_time : Q) : bool :=
  Qle_bool (inject_Z REPORT_INTERVAL_SECONDS)
           (current_time - last_report_time).

Definition duration_str (duration_seconds : Q) : string :=
  let '(m, s) := Py.divmod duration_seconds 60 in
  let '(h, m) := Py.divmod m 60 in
  Py.format_02d (Py.int h) ++ ":" ++ Py.format_02d (Py.int m) ++ ":"
  ++ Py.format_02d (Py.int s).

(** The lines one item of [phone_status] adds to the report. *)
Definition report_line (strftime_local : Q -> string) (current_time : Q)
    (item : string * status_info) : list string :=
  let '(ip, status_info) := item in
  if status_eqb (state status_info) failed then
    let failed_since := since status_info in
    if truthy_time failed_since then
      let duration_seconds := (current_time - time_or_zero failed_since)%Q in
      let failed_since_str := strftime_local (time_or_zero failed_since) in
      ["- " ++ ip ++ ": недоступен с " ++ failed_since_str
       ++ " (продолжительность: " ++ duration_str duration_seconds ++ ")"]
    else ["- " ++ ip ++ ": недоступен (точное время сбоя неизвестно)"]
  else [].

Definition failed_phones_report_lines (strftime_local : Q -> string)
    (current_time : Q) (d : Dict.t status_info) : list string :=
  flat_map (report_line strftime_local current_time) (Dict.items d).

(** The report logic of one pass; its value is the new
    [last_report_time]. *)
Definition report_logic (REPORT_INTERVAL_SECONDS : Z) (c : cycle_input)
    (last_report_time : Q) : M Q :=
  if report_due REPORT_INTERVAL_SECONDS (current_time c) last_report_time
  then
    d <- read_status ;;
    let lines :=
      failed_phones_report_lines (strftime_local c) (current_time c) d in
    match lines with
    | _ :: _ =>
      let subject :=
        "SIP Monitor Report: Недоступные телефоны (" ++ subject_stamp c
        ++ ")" in
      let body :=
        "Следующие SIP телефоны в настоящее время недоступны:" ++ LF ++ LF
        ++ Py.join LF lines ++ LF ++ LF ++ "Монитор продолжает работу." in
      let telegram_msg :=
        "SIP Monitor: Недоступные телефоны:" ++ LF ++ Py.join LF lines in
      notify_alert (world_outside c) subject body (Some telegram_msg)
    | [] => ret tt
    end ;;
    ret (current_time c)
  else ret last_report_time.

(** The threads of one pass.  Each thread runs [send_options] for its own
    target and writes its own key of [phone_status]; the runs are taken one
    after the other, in the order given. *)
Fixpoint run_probes (source_ip : string) (order : list string)
    (probe_of : string -> probe_input) : M unit :=
  match order with
  | [] => ret tt
  | target_ip :: rest =>
    send_options target_ip source_ip (probe_of target_ip) ;;
    run_probes source_ip rest probe_of
  end.

(** One pass of the [while True] body. *)
Definition cycle (REPORT_INTERVAL_SECONDS : Z) (source_ip : string)
    (c : cycle_input) (last_report_time : Q) : M Q :=
  run_probes source_ip (finish_order c) (probe_of c) ;;
  let elapsed_time := (joined_time c - start_time c)%Q in
  let wait_time := wait_time elapsed_time in
  last_report_time' <-
    report_logic REPORT_INTERVAL_SECONDS c last_report_time ;;
  when (if Qlt_le_dec 0 wait_time then true else false)
       (emit (Sleep wait_time)) ;;
  ret last_report_time'.

Fixpoint cycles (REPORT_INTERVAL_SECONDS : Z) (source_ip : string)
    (passes : list cycle_input) (last_report_time : Q) : M Q :=
  match passes with
  | [] => ret last_report_time
  | c :: rest =>
    last_report_time' <-
      cycle REPORT_INTERVAL_SECONDS source_ip c last_report_time ;;
    cycles REPORT_INTERVAL_SECONDS source_ip rest last_report_time'
  end.

(** [monitor_loop], cut after the given passes. *)
Definition monitor_loop (REPORT_INTERVAL_SECONDS : Z)
    (autodetected : option string) (started : Q)
    (passes : list cycle_input) : M Q :=
  write_status initial_status ;;
  let last_report_time := started in
  cycles REPORT_INTERVAL_SECONDS (source_ip_actual autodetected) passes
         last_report_time.

End RU.

(* ===================================================================== *)
(** ** Vocabulary of the specification *)
(* ===================================================================== *)

(** What one probe run observes, in the words of the classification
    policy. *)
Inductive observation : Type :=
| TransportError (e : exn)    (* socket creation, send or set-up raised *)
| NoDatagram                  (* the receive timed out *)
| ReceiveError (e : exn)      (* the receive raised something else *)
| Datagram (data : Py.bytes) (ip : string) (port : Z).

Definition observe (net : socket.behaviour) : observation :=
  match socket.on_socket net, socket.on_sendto net,
        socket.on_settimeout net with
  | Some e, _, _ => TransportError e
  | None, Some e, _ => TransportError e
  | None, None, Some e => TransportError e
  | None, None, None =>
    match socket.on_recvfrom net with
    | inl socket_timeout => NoDatagram
    | inl e => ReceiveError e
    | inr (data, (ip, port)) => Datagram data ip port
    end
  end.

(** The first line of a text; the empty text has an empty first line. *)
Definition first_line (text : string) : string :=
  match Py.splitlines text with
  | [] => ""
  | line :: _ => line
  end.

Definition success_line (data : Py.bytes) : bool :=
  Py.contains "SIP/2.0 200 OK" (first_line (Py.decode_utf8_ignore data)).

(** The classification policy, rule by rule and in its order. *)
Definition classify (target_ip : string) (obs : observation) : status :=
  match obs with
  | NoDatagram | TransportError _ | ReceiveError _ => failed
  | Datagram data ip _ =>
    if negb (String.eqb ip target_ip) then failed
    else if negb (success_line data) then failed
    else ok
  end.

(** The network events of one probe run. *)
Definition probe_events (target_ip : string) (port : Z) (msg : Py.bytes)
    (net : socket.behaviour) : list event :=
  match socket.on_socket net with
  | Some _ => []
  | None =>
    match socket.on_sendto net with
    | Some _ => [SockClose]
    | None => [Sendto msg target_ip port; SockClose]
    end
  end.

Definition status_of (ip : string) (d : Dict.t status_info) : status :=
  state (Dict.get_default ip (mk_info unknown None) d).

(** The state store after one outcome is applied. *)
Definition apply_outcome (target_ip : string) (new : status) (now : Q)
    (d : Dict.t status_info) : Dict.t status_info :=
  if status_eqb new (status_of target_ip d) then d
  else Dict.set target_ip (mk_info new (Some now)) d.

(** The status-change message of one application, if any. *)
Definition transition (target_ip : string) (new : status) (now : Q)
    (d : Dict.t status_info) : list event :=
  if status_eqb new (status_of target_ip d) then []
  else [DebugPrint (StatusChange target_ip (status_of target_ip d) new now)].

(** [ProbeOutcome] and its status label. *)
Inductive ProbeOutcome : Type := Reachable | Unreachable.

Definition status_label (o : ProbeOutcome) : status :=
  match o with Reachable => ok | Unreachable => failed end.

(** The bytes [send_options] hands to [sendto]. *)
Definition EN_message (target src : string) (inp : probe_input) : Py.bytes :=
  Py.encode_utf8
    (string_of_list_byte
       (EN.create_options_message target EN.TARGET_PORT src EN.SOURCE_PORT
                                  (draws inp))).

(** The world after one [send_options] run, and after a sequence of runs
    (each run names its target and carries its inputs). *)
Definition after_probe (src : string) (w : world)
    (r : string * probe_input) : world :=
  snd (EN.send_options (fst r) src (snd r) w).

Definition after_probes (src : string) (w : world)
    (h : list (string * probe_input)) : world :=
  fold_left (after_probe src) h w.

Definition store_after (src : string) (w : world)
    (h : list (string * probe_input)) : Dict.t status_info :=
  phone_status (after_probes src w h).

(** The world right after the initialization of [monitor_loop]. *)
Definition startup (tr : list event) : world := mk_world EN.initial_status tr.

(** No run of [post], started from [w], changes the status of [ip]. *)
Definition unchanged_through (ip src : string) (w : world)
    (post : list (string * probe_input)) : Prop :=
  forall post1 r post2,
    post = (post1 ++ r :: post2)%list ->
    status_of ip (store_after src w (post1 ++ [r])%list)
    = status_of ip (store_after src w post1).

(** The runs of one pass: one per started thread, in the order they ran. *)
Definition runs_of (c : cycle_input) : list (string * probe_input) :=
  map (fun ip => (ip, probe_of c ip)) (finish_order c).

(** A pass is complete when every configured target was probed in it. *)
Definition complete_pass (c : cycle_input) : Prop :=
  forall ip, In ip EN.TARGET_IPS -> In ip (finish_order c).

Definition sleep_events (c : cycle_input) : list event :=
  let wait_time := EN.wait_time (joined_time c - start_time c) in
  if Qlt_le_dec 0 wait_time then [Sleep wait_time] else [].

(** One pass of the loop body up to, and without, its final sleep. *)
Definition pass_before_sleep (R : Z) (src : string) (c : cycle_input)
    (last_report_time : Q) : M Q :=
  EN.run_probes src (finish_order c) (probe_of c) ;;
  EN.report_logic R c last_report_time.

(** What [send_email_alert] adds to the trace. *)
Definition email_events (cfg : email_utils.settings)
    (smtp : email_utils.smtp_outcome) (subject body : string) : list event :=
  match smtp with
  | email_utils.Delivered =>
    [Sendmail (email_utils.with_tls_and_login cfg)
              (email_utils.SENDER_EMAIL cfg) (email_utils.RECIPIENT_EMAIL cfg)
              subject body;
     DebugPrint (EmailSent subject)]
  | email_utils.SmtpRaises e => [DebugPrint (EmailFailed e)]
  end.

Definition telegram_configured (cfg : telegram_utils.settings) : bool :=
  truthy_opt (telegram_utils.TELEGRAM_BOT_TOKEN cfg)
  && truthy_opt (telegram_utils.TELEGRAM_CHAT_ID cfg)
  && negb (opt_eqb (telegram_utils.TELEGRAM_BOT_TOKEN cfg)
                                  "YOUR_BOT_TOKEN")
  && negb (opt_eqb (telegram_utils.TELEGRAM_CHAT_ID cfg)
                                  "YOUR_CHAT_ID").

(** What [send_telegram_alert] adds to the trace. *)
Definition telegram_events (cfg : telegram_utils.settings)
    (http : telegram_utils.http_outcome) (message : string) : list event :=
  if telegram_configured cfg then
    match http with
    | telegram_utils.Response code text =>
      [HttpPost (match telegram_utils.TELEGRAM_CHAT_ID cfg with
                 | Some c => c | None => "" end) message;
       PrintLine (if (code =? 200)%Z then TelegramSent
                  else TelegramRejected text)]
    | telegram_utils.HttpRaises e => [PrintLine (TelegramException e)]
    end
  else [DebugPrint TelegramNotConfigured].

(** What [notify_alert] of the Russian script adds to the trace. *)
Definition RU_notify_events (o : outside) (subject body : string)
    (telegram_message : option string) : list event :=
  (email_events (mail_cfg o) (smtp o) subject body
   ++ match telegram_message with
      | Some message =>
        if Py.truthy message
        then telegram_events (telegram_cfg o) (http o) message
        else []
      | None => []
      end)%list.

(** A call of one of the sinks of [email_utils] and [telegram_utils] shows
    in the trace as a delivery or as one of their log lines. *)
Definition is_sink_event (ev : event) : bool :=
  match ev with
  | Sendmail _ _ _ _ _ | HttpPost _ _ => true
  | DebugPrint (EmailSent _) | DebugPrint (EmailFailed _)
  | DebugPrint TelegramNotConfigured => true
  | PrintLine _ => true
  | _ => false
  end.

Definition some_failed (d : Dict.t status_info) : bool :=
  existsb (fun item => status_eqb (state (snd item)) failed) (Dict.items d).

(** The report texts of the Russian script for a list of lines. *)
Definition RU_subject (c : cycle_input) : string :=
  "SIP Monitor Report: Недоступные телефоны (" ++ subject_stamp c ++ ")".

Definition RU_body (lines : list string) : string :=
  "Следующие SIP телефоны в настоящее время недоступны:" ++ LF ++ LF
  ++ Py.join LF lines ++ LF ++ LF ++ "Монитор продолжает работу.".

Definition RU_telegram_msg (lines : list string) : string :=
  "SIP Monitor: Недоступные телефоны:" ++ LF ++ Py.join LF lines.

(** What the report logic of the Russian script adds to the trace. *)
Definition RU_report_events (R : Z) (c : cycle_input) (last : Q)
    (d : Dict.t status_info) : list event :=
  if RU.report_due R (current_time c) last then
    match RU.failed_phones_report_lines (strftime_local c) (current_time c) d
    with
    | [] => []
    | lines =>
      RU_notify_events (world_outside c) (RU_subject c) (RU_body lines)
                       (Some (RU_telegram_msg lines))
    end
  else [].

(** *** A scenario: one target answers 200 OK, the other never answers *)

Definition net_timeout : socket.behaviour :=
  {| socket.on_socket := None; socket.on_sendto := None;
     socket.on_settimeout := None; socket.on_recvfrom := inl socket_timeout |}.

Definition net_reply (from payload : string) : socket.behaviour :=
  {| socket.on_socket := None; socket.on_sendto := None;
     socket.on_settimeout := None;
     socket.on_recvfrom := inr (Py.encode_utf8 payload, (from, 5060%Z)) |}.

Definition sample_draws : uuid.t * uuid.t * uuid.t :=
  (0x1b4e28ba2fa141d2883f0016d3cca427, 0x6fa459eaee8a4ca4894edb77e160355e,
   0x16fd27068baf433b82eb8c7fada847da)%N.

Definition sample_probe (n : socket.behaviour) (t : Q) : probe_input :=
  {| draws := sample_draws; net := n; change_time := t |}.

Definition scenario_probe (t : Q) (ip : string) : probe_input :=
  if String.eqb ip "192.168.13.101"
  then sample_probe net_timeout t
  else sample_probe (net_reply ip ("SIP/2.0 200 OK" ++ CRLF)) t.

Definition working_outside : outside :=
  {| mail_cfg :=
       {| email_utils.SMTP_SERVER := Some "smtp.example.org";
          email_utils.SMTP_PORT := 587;
          email_utils.SMTP_USERNAME := Some "monitor";
          email_utils.SMTP_PASSWORD := Some "secret";
          email_utils.SENDER_EMAIL := Some "monitor@example.org";
          email_utils.RECIPIENT_EMAIL := Some "ops@example.org" |};
     smtp := email_utils.Delivered;
     telegram_cfg :=
       {| telegram_utils.TELEGRAM_BOT_TOKEN := Some "123456:token";
          telegram_utils.TELEGRAM_CHAT_ID := Some "42" |};
     http := telegram_utils.Response 200 "ok" |}.

Definition first_pass : cycle_input :=
  {| finish_order := EN.TARGET_IPS;
     probe_of := scenario_probe 100;
     start_time := 98; joined_time := 100; current_time := 100;
     strftime_local := fun _ => "1970-01-01 00:01:40";
     subject_stamp := "1970-01-01 00:01";
     world_outside := working_outside |}.

Definition later_pass : cycle_input :=
  {| finish_order := EN.TARGET_IPS;
     probe_of := scenario_probe 3700;
     start_time := 3698; joined_time := 3700; current_time := 3700;
     strftime_local := fun _ => "1970-01-01 00:01:40";
     subject_stamp := "1970-01-01 01:01";
     world_outside := working_outside |}.

Definition scenario_lines : list string :=
  ["- 192.168.13.101: недоступен с 1970-01-01 00:01:40 "
   ++ "(продолжительность: 01:00:00)"].

(** The draws of a second request whose second and third UUID share their
    first eight digits with those of [sample_draws]. *)
Definition other_draws : uuid.t * uuid.t * uuid.t :=
  (0x9f2c4d7e1a3b4c5d8e6f0a1b2c3d4e5f, 0x6fa459ea12344ca4894edb77e1603aaa,
   0x16fd270699994abc82eb8c7fada80000)%N.

(** The draws of two requests, in the order they were made. *)
Definition all_draws (a b : uuid.t * uuid.t * uuid.t) : list uuid.t :=
  let '(a1, a2, a3) := a in
  let '(b1, b2, b3) := b in
  [a1; a2; a3; b1; b2; b3].

(** The freshness the specification asks for: two requests made from
    pairwise distinct draws share no Call-ID, no branch and no tag. *)
Definition identifiers_always_fresh : Prop :=
  forall a b : uuid.t * uuid.t * uuid.t,
    Forall uuid.in_range (all_draws a b) ->
    NoDup (all_draws a b) ->
    EN.call_id_of (fst (fst a)) <> EN.call_id_of (fst (fst b))
    /\ EN.branch_of (snd (fst a)) <> EN.branch_of (snd (fst b))
    /\ EN.tag_of (snd a) <> EN.tag_of (snd b).

(** *** Vocabulary of the further properties *)

Definition is_sendto (ev : event) : bool :=
  match ev with Sendto _ _ _ => true | _ => false end.

Definition is_close (ev : event) : bool :=
  match ev with SockClose => true | _ => false end.

Definition is_sleep (ev : event) : bool :=
  match ev with Sleep _ => true | _ => false end.

Definition is_http_post (ev : event) : bool :=
  match ev with HttpPost _ _ => true | _ => false end.

Definition is_sendmail (ev : event) : bool :=
  match ev with Sendmail _ _ _ _ _ => true | _ => false end.

Definition is_status_change (ev : event) : bool :=
  match ev with DebugPrint (StatusChange _ _ _ _) => true | _ => false end.

(** [sendto] was reached and returned. *)
Definition datagram_left (net : socket.behaviour) : bool :=
  match socket.on_socket net, socket.on_sendto net with
  | None, None => true
  | _, _ => false
  end.

(** A network on which every call returns and the given datagram comes
    back. *)
Definition net_answer (data : Py.bytes) (ip : string) (port : Z)
    : socket.behaviour :=
  {| socket.on_socket := None; socket.on_sendto := None;
     socket.on_settimeout := None;
     socket.on_recvfrom := inr (data, (ip, port)) |}.

(** Printable ASCII: the characters from the space to the tilde. *)
Definition plain_char (c : ascii) : bool :=
  ((32 <=? Py.ord c) && (Py.ord c <? 127))%N.

Fixpoint plain (s : string) : bool :=
  match s with
  | EmptyString => true
  | String c r => plain_char c && plain r
  end.

(** The records of a store whose state is ['failed'], in its order. *)
Definition failed_items (d : Dict.t status_info)
    : list (string * status_info) :=
  filter (fun item => status_eqb (state (snd item)) failed) (Dict.items d).

(** The new events of a run started in [w]. *)
Definition new_events (w w' : world) : list event :=
  skipn (List.length (out w)) (out w').

(** The events a [send_options] run can leave. *)
Definition is_probe_event (ev : event) : bool :=
  is_sendto ev || is_close ev || is_status_change ev.

(** The two forms of a report line of the English script. *)
Definition EN_line_with_duration (strftime : Q -> string) (now : Q)
    (ip : string) (t : Q) : string :=
  "- " ++ ip ++ ": unavailable since " ++ strftime t ++ " (duration: "
  ++ EN.duration_str (now - t) ++ ")".

Definition EN_line_without_time (ip : string) : string :=
  "- " ++ ip ++ ": unavailable (exact failure time unknown)".

(** The lines of the request, in their order; the last one is the empty
    line that ends the headers. *)
Definition EN_request_lines (target_ip : string) (target_port : Z)
    (source_ip : string) (source_port : Z)
    (drawn : uuid.t * uuid.t * uuid.t) : list string :=
  let '(u1, u2, u3) := drawn in
  ["OPTIONS sip:monitor@" ++ target_ip ++ ":" ++ Py.str_int target_port
   ++ " SIP/2.0";
   "Via: SIP/2.0/UDP " ++ source_ip ++ ":" ++ Py.str_int source_port
   ++ ";branch=" ++ EN.branch_of u2 ++ ";rport";
   "Max-Forwards: 70";
   "From: <sip:monitor@" ++ source_ip ++ ":" ++ Py.str_int source_port
   ++ ">;tag=" ++ EN.tag_of u3;
   "To: <sip:monitor@" ++ target_ip ++ ":" ++ Py.str_int target_port ++ ">";
   "Contact: <sip:monitor@" ++ source_ip ++ ":" ++ Py.str_int source_port
   ++ ">";
   "Call-ID: " ++ EN.call_id_of u1;
   "CSeq: 1 OPTIONS";
   "User-Agent: " ++ EN.USER_AGENT;
   "Accept: application/sdp";
   "Content-Length: 0";
   ""].

(** Each line followed by CR LF. *)
Definition crlf_lines (lines : list string) : string :=
  fold_right (fun line text => line ++ CRLF ++ text) "" lines.

(** The lines printed when DEBUG is off can only be these. *)
Definition is_telegram_result (l : log_line) : bool :=
  match l with
  | TelegramSent | TelegramRejected _ | TelegramException _ => true
  | _ => false
  end.

(* ===================================================================== *)
(** ** Basic facts *)
(* ===================================================================== *)

Lemma status_eqb_eq a b : status_eqb a b = true <-> a = b.
Proof. destruct a, b; simpl; split; congruence. Qed.

Lemma status_eqb_neq a b : status_eqb a b = false <-> a <> b.
Proof. destruct a, b; simpl; split; congruence. Qed.

Lemma status_eqb_refl a : status_eqb a a = true.
Proof. now destruct a. Qed.

Example decode_keeps_ascii :
  Py.decode_utf8_ignore (Py.encode_utf8 "SIP/2.0 200 OK") = "SIP/2.0 200 OK".
Proof. reflexivity. Qed.

Example decode_drops_ill_formed_bytes :
  Py.decode_utf8_ignore [xff; x41; xc3; x42; xe2; x82]%list = "AB".
Proof. reflexivity. Qed.

Example splitlines_examples :
  (Py.splitlines "", Py.splitlines LF, Py.splitlines ("a" ++ CRLF ++ "b"),
   Py.splitlines ("a" ++ LF ++ LF ++ "b" ++ LF))
  = ([], [""], ["a"; "b"], ["a"; ""; "b"]).
Proof. reflexivity. Qed.

Example format_02d_examples :
  (Py.format_02d 0, Py.format_02d 1, Py.format_02d 25, Py.format_02d 123,
   Py.format_02d (-1))
  = ("00", "01", "25", "123", "-1").
Proof. reflexivity. Qed.

Example uuid_str_example :
  uuid.str (fst (fst sample_draws)) = "1b4e28ba-2fa1-41d2-883f-0016d3cca427".
Proof. reflexivity. Qed.

Lemma debug_print_is_gated (DEBUG : bool) (l : log_line) :
  printed DEBUG [DebugPrint l] = if DEBUG then [l] else [].
Proof. simpl. now destruct DEBUG. Qed.

Lemma print_is_not_gated (DEBUG : bool) (l : log_line) :
  printed DEBUG [PrintLine l] = [l].
Proof. reflexivity. Qed.

Lemma world_eta w : mk_world (phone_status w) (out w) = w.
Proof. now destruct w. Qed.

Lemma no_success_in_empty_line : Py.contains "SIP/2.0 200 OK" "" = false.
Proof. reflexivity. Qed.

Lemma first_line_of_empty : first_line "" = "".
Proof. reflexivity. Qed.

Lemma truthy_false s : Py.truthy s = false -> s = "".
Proof. destruct s; simpl; congruence. Qed.

Lemma classify_never_unknown target obs : classify target obs <> unknown.
Proof.
  destruct obs; simpl; try discriminate.
  destruct (negb (String.eqb ip target)); [discriminate |].
  destruct (negb (success_line data)); discriminate.
Qed.

Lemma classify_ok_or_failed target obs :
  classify target obs = ok \/ classify target obs = failed.
Proof.
  generalize (classify_never_unknown target obs).
  destruct (classify target obs); intuition congruence.
Qed.

(** *** Running the probe *)

Ltac run_step :=
  unfold try_finally, try_except, bind, ret, raise, when, emit,
    socket.socket, socket.sendto, socket.settimeout, socket.recvfrom,
    socket.call, socket.created, subscript0; simpl.

Lemma EN_probe_run target msg net w :
  EN.probe target msg net w
  = (Return (classify target (observe net)),
     mk_world (phone_status w)
              (out w ++ probe_events target EN.TARGET_PORT msg net)).
Proof.
  destruct net as [so st sti rf].
  unfold EN.probe, observe, probe_events; run_step.
  destruct so as [e |];
    [destruct e; simpl; rewrite app_nil_r, world_eta; reflexivity |].
  destruct st as [e |]; [destruct e; reflexivity |].
  destruct sti as [e |];
    [destruct e; simpl; rewrite <- app_assoc; reflexivity |].
  destruct rf as [e | [data [ip port]]];
    [destruct e; simpl; rewrite <- app_assoc; reflexivity |].
  simpl. unfold success_line, first_line.
  destruct (String.eqb ip target); simpl;
    [| rewrite <- app_assoc; reflexivity].
  destruct (Py.truthy (Py.decode_utf8_ignore data)) eqn:T; simpl.
  - destruct (Py.splitlines (Py.decode_utf8_ignore data)) as [| l ls];
      simpl; [rewrite <- app_assoc; reflexivity |].
    destruct (Py.contains "SIP/2.0 200 OK" l); simpl;
      rewrite <- app_assoc; reflexivity.
  - rewrite (truthy_false _ T). simpl. rewrite <- app_assoc. reflexivity.
Qed.

(** C1. The probe classifies every run by the ordered policy: a transport
    error, a timeout or a failed receive gives ['failed']; a datagram from
    another address gives ['failed']; a datagram from the target whose first
    decoded line lacks ["SIP/2.0 200 OK"] gives ['failed']; only a datagram
    from the target whose first line contains it gives ['ok'].  The run
    always returns. *)
Theorem probe_classification (target_ip : string) (msg : Py.bytes)
    (net : socket.behaviour) (w : world) :
  fst (EN.probe target_ip msg net w)
  = Return (classify target_ip (observe net))
  /\ (classify target_ip (observe net) = ok <->
      exists data port,
        observe net = Datagram data target_ip port
        /\ success_line data = true)
  /\ (classify target_ip (observe net) = failed <->
      match observe net with
      | NoDatagram | TransportError _ | ReceiveError _ => True
      | Datagram data ip _ => ip <> target_ip \/ success_line data = false
      end).
Proof.
  rewrite EN_probe_run. split; [reflexivity |].
  destruct (observe net) as [e | | e | data ip port]; simpl.
  1-3: split; split; try discriminate; try tauto;
       intros (d & p & H & _); discriminate.
  destruct (String.eqb_spec ip target_ip) as [-> | Hne]; simpl.
  - destruct (success_line data) eqn:S; simpl; split; split;
      try discriminate; try tauto; try (intros [H | H]; congruence).
    + intros _. now exists data, port.
    + intros (d & p & H & Hs). injection H as -> _. congruence.
  - split; split; try discriminate; try tauto.
    intros (d & p & H & _). injection H as _ H _. congruence.
Qed.

Example classify_200_from_target :
  classify "172.16.31.144"
    (Datagram (Py.encode_utf8 ("SIP/2.0 200 OK" ++ CRLF ++ "Via: x" ++ CRLF))
              "172.16.31.144" 5060) = ok.
Proof. reflexivity. Qed.

Example classify_200_from_elsewhere :
  classify "172.16.31.144"
    (Datagram (Py.encode_utf8 ("SIP/2.0 200 OK" ++ CRLF))
              "10.0.0.1" 5060) = failed.
Proof. reflexivity. Qed.

Example classify_503 :
  classify "172.16.31.144"
    (Datagram (Py.encode_utf8 ("SIP/2.0 503 Service Unavailable" ++ CRLF))
              "172.16.31.144" 5060) = failed.
Proof. reflexivity. Qed.

Example classify_empty_payload :
  classify "172.16.31.144" (Datagram [] "172.16.31.144" 5060) = failed.
Proof. reflexivity. Qed.

Example classify_undecodable_payload :
  classify "172.16.31.144" (Datagram [xff; xfe; xc3]%list "172.16.31.144" 5060)
  = failed.
Proof. reflexivity. Qed.

Example classify_200_on_second_line :
  classify "172.16.31.144"
    (Datagram (Py.encode_utf8 ("hello" ++ LF ++ "SIP/2.0 200 OK"))
              "172.16.31.144" 5060) = failed.
Proof. reflexivity. Qed.

(** *** The dictionary *)

Lemma dict_get_set_same {V} k (v : V) d : Dict.get k (Dict.set k v d) = Some v.
Proof.
  induction d as [| [k' v'] d IH]; simpl.
  - now rewrite String.eqb_refl.
  - destruct (String.eqb k k') eqn:E; simpl; rewrite E; auto.
Qed.

Lemma dict_get_set_other {V} k k' (v : V) d :
  k' <> k -> Dict.get k' (Dict.set k v d) = Dict.get k' d.
Proof.
  intros Hne. induction d as [| [k0 v0] d IH]; simpl.
  - destruct (String.eqb_spec k' k); congruence.
  - destruct (String.eqb_spec k k0) as [-> | Hk]; simpl.
    + destruct (String.eqb_spec k' k0); congruence.
    + now rewrite IH.
Qed.

Lemma dict_keys_set_present {V} k (v v0 : V) d :
  Dict.get k d = Some v0 -> Dict.keys (Dict.set k v d) = Dict.keys d.
Proof.
  induction d as [| [k' v'] d IH]; simpl; [discriminate |].
  destruct (String.eqb k k') eqn:E; simpl; [reflexivity |].
  intros H. unfold Dict.keys in *. simpl. f_equal. auto.
Qed.

Lemma status_of_get ip d rec :
  Dict.get ip d = Some rec -> status_of ip d = state rec.
Proof. unfold status_of, Dict.get_default. now intros ->. Qed.

(** *** Running the update and the whole of [send_options] *)

Lemma EN_update_status_run target cur now w :
  EN.update_status target cur now w
  = (Return tt,
     mk_world (apply_outcome target cur now (phone_status w))
              (out w ++ transition target cur now (phone_status w))).
Proof.
  unfold EN.update_status, apply_outcome, transition, status_of,
    read_status, write_status, debug_print, bind, ret, emit.
  destruct (status_eqb cur _); simpl; [| reflexivity].
  now rewrite app_nil_r, world_eta.
Qed.

Lemma EN_send_options_run target src inp w :
  EN.send_options target src inp w
  = (Return tt,
     let new := classify target (observe (net inp)) in
     mk_world (apply_outcome target new (change_time inp) (phone_status w))
              (out w
               ++ probe_events target EN.TARGET_PORT (EN_message target src inp)
                               (net inp)
               ++ transition target new (change_time inp) (phone_status w))).
Proof.
  unfold EN.send_options, bind. fold (EN_message target src inp).
  rewrite EN_probe_run, EN_update_status_run. simpl.
  now rewrite <- app_assoc.
Qed.

(** C2. Applying an outcome to a registered target: ['ok'] stands for
    Reachable and ['failed'] for Unreachable; when the label equals the
    stored state nothing is mutated and no status-change message is
    produced; when it differs the record becomes exactly
    [{state: new, since: now}], the other records and the order of the keys
    stay, and one status-change message carrying the target, the old state,
    the new state and [now] is handed to the log. *)
Theorem apply_probe_outcome (target_ip : string) (o : ProbeOutcome) (now : Q)
    (w : world) (rec : status_info) :
  Dict.get target_ip (phone_status w) = Some rec ->
  (status_label o = state rec ->
   EN.update_status target_ip (status_label o) now w = (Return tt, w))
  /\ (status_label o <> state rec ->
      exists d',
        EN.update_status target_ip (status_label o) now w
        = (Return tt,
           mk_world d'
             (out w ++ [DebugPrint (StatusChange target_ip (state rec)
                                                 (status_label o) now)]))
        /\ Dict.get target_ip d' = Some (mk_info (status_label o) (Some now))
        /\ (forall other, other <> target_ip ->
                          Dict.get other d' = Dict.get other (phone_status w))
        /\ Dict.keys d' = Dict.keys (phone_status w)).
Proof.
  intros Hget. rewrite EN_update_status_run.
  unfold apply_outcome, transition. rewrite (status_of_get _ _ _ Hget).
  split; intros H.
  - rewrite H, status_eqb_refl, app_nil_r. now rewrite world_eta.
  - apply status_eqb_neq in H. rewrite H.
    eexists; split; [reflexivity |]. split; [apply dict_get_set_same |].
    split; [intros other Ho; now apply dict_get_set_other |].
    eapply dict_keys_set_present; eauto.
Qed.

Lemma apply_probe_outcome_witness :
  Dict.get "172.16.31.144" EN.initial_status = Some (mk_info unknown None)
  /\ exists d',
      EN.update_status "172.16.31.144" failed 5 (mk_world EN.initial_status [])
      = (Return tt,
         mk_world d'
           [DebugPrint (StatusChange "172.16.31.144" unknown failed 5)])
      /\ Dict.get "172.16.31.144" d' = Some (mk_info failed (Some 5)).
Proof.
  split; [reflexivity |].
  destruct (apply_probe_outcome "172.16.31.144" Unreachable 5
              (mk_world EN.initial_status []) (mk_info unknown None)
              eq_refl) as [_ H].
  destruct (H ltac:(discriminate)) as (d' & H1 & H2 & _).
  exists d'. split; assumption.
Defined.

(** *** Sequences of runs *)

Lemma after_probe_store src w r :
  phone_status (after_probe src w r)
  = apply_outcome (fst r) (classify (fst r) (observe (net (snd r))))
                  (change_time (snd r)) (phone_status w).
Proof. unfold after_probe. now rewrite EN_send_options_run. Qed.

Lemma after_probes_snoc src w h r :
  after_probes src w (h ++ [r]) = after_probe src (after_probes src w h) r.
Proof. unfold after_probes. now rewrite fold_left_app. Qed.

Lemma store_after_snoc src w h r :
  store_after src w (h ++ [r])
  = apply_outcome (fst r) (classify (fst r) (observe (net (snd r))))
                  (change_time (snd r)) (store_after src w h).
Proof. unfold store_after. now rewrite after_probes_snoc, after_probe_store. Qed.

Lemma store_after_app src w h1 h2 :
  store_after src w (h1 ++ h2) = store_after src (after_probes src w h1) h2.
Proof. unfold store_after, after_probes. now rewrite fold_left_app. Qed.

Lemma status_of_set ip v d :
  status_of ip (Dict.set ip v d) = state v.
Proof. unfold status_of, Dict.get_default. now rewrite dict_get_set_same. Qed.

Lemma status_of_set_other ip k v d :
  ip <> k -> status_of ip (Dict.set k v d) = status_of ip d.
Proof.
  intros H. unfold status_of, Dict.get_default.
  now rewrite dict_get_set_other.
Qed.

(** A run that leaves the status of [ip] alone leaves its record alone. *)
Lemma unchanged_status_keeps_record ip t new now d :
  status_of ip (apply_outcome t new now d) = status_of ip d ->
  Dict.get ip (apply_outcome t new now d) = Dict.get ip d.
Proof.
  unfold apply_outcome.
  destruct (status_eqb new (status_of t d)) eqn:E; [reflexivity |].
  destruct (String.eqb_spec ip t) as [-> | Hne].
  - rewrite status_of_set. simpl. intros H.
    rewrite <- H, status_eqb_refl in E. discriminate.
  - intros _. now apply dict_get_set_other.
Qed.

(** A run that changes the status of [ip] is a run for [ip], and it writes
    the record. *)
Lemma changed_status_writes_record ip t new now d :
  status_of ip (apply_outcome t new now d) <> status_of ip d ->
  t = ip
  /\ Dict.get ip (apply_outcome t new now d) = Some (mk_info new (Some now)).
Proof.
  unfold apply_outcome.
  destruct (status_eqb new (status_of t d)) eqn:E; [congruence |].
  destruct (String.eqb_spec ip t) as [-> | Hne].
  - intros _. split; [reflexivity | apply dict_get_set_same].
  - rewrite status_of_set_other by assumption. congruence.
Qed.

Lemma status_after_own_run ip new now d :
  status_of ip (apply_outcome ip new now d) = new.
Proof.
  unfold apply_outcome.
  destruct (status_eqb new (status_of ip d)) eqn:E.
  - apply status_eqb_eq in E. congruence.
  - apply status_of_set.
Qed.

Lemma known_status_stays_known ip t new now d :
  new <> unknown ->
  status_of ip d <> unknown ->
  status_of ip (apply_outcome t new now d) <> unknown.
Proof.
  intros Hnew Hd.
  destruct (status_eqb (status_of ip (apply_outcome t new now d))
                       (status_of ip d)) eqn:E.
  - apply status_eqb_eq in E. congruence.
  - apply status_eqb_neq in E.
    destruct (changed_status_writes_record _ _ _ _ _ E) as [-> _].
    now rewrite status_after_own_run.
Qed.

Lemma known_status_has_record ip d :
  status_of ip d <> unknown ->
  exists rec, Dict.get ip d = Some rec /\ state rec <> unknown.
Proof.
  unfold status_of, Dict.get_default.
  destruct (Dict.get ip d) as [rec |]; simpl; [eauto | congruence].
Qed.

Lemma initial_records ip rec :
  Dict.get ip EN.initial_status = Some rec -> rec = mk_info unknown None.
Proof.
  unfold EN.initial_status. simpl.
  repeat (match goal with
          | |- context [String.eqb ?a ?b] => destruct (String.eqb a b)
          end; try congruence).
Qed.

Lemma initial_status_unknown ip : status_of ip EN.initial_status = unknown.
Proof.
  unfold status_of, Dict.get_default.
  destruct (Dict.get ip EN.initial_status) as [rec |] eqn:E; [| reflexivity].
  now rewrite (initial_records _ _ E).
Qed.

(** A status other than ['unknown'] shows that the target was probed. *)
Lemma known_status_was_probed src tr ip h :
  status_of ip (store_after src (startup tr) h) <> unknown ->
  In ip (map fst h).
Proof.
  induction h as [| r h IH] using rev_ind.
  - unfold store_after; simpl. now rewrite initial_status_unknown.
  - rewrite store_after_snoc, map_app, in_app_iff. intros H.
    destruct (status_eqb
                (status_of ip (apply_outcome (fst r)
                   (classify (fst r) (observe (net (snd r))))
                   (change_time (snd r)) (store_after src (startup tr) h)))
                (status_of ip (store_after src (startup tr) h))) eqn:E.
    + apply status_eqb_eq in E. left. apply IH. congruence.
    + apply status_eqb_neq in E.
      destruct (changed_status_writes_record _ _ _ _ _ E) as [Ht _].
      right. simpl. now left.
Qed.

Lemma split_snoc {A} (p1 p2 post : list A) (x r : A) :
  (post ++ [r])%list = (p1 ++ x :: p2)%list ->
  (p2 = [] /\ p1 = post /\ x = r)
  \/ exists p2', p2 = (p2' ++ [r])%list /\ post = (p1 ++ x :: p2')%list.
Proof.
  destruct p2 as [| z p2] using rev_ind; intros H.
  - left. apply app_inj_tail in H. intuition congruence.
  - right. exists p2. clear IHp2.
    change (post ++ [r] = p1 ++ (x :: p2) ++ [z])%list in H.
    rewrite app_assoc in H. apply app_inj_tail in H.
    destruct H as [-> ->]. auto.
Qed.

Lemma store_invariant src tr h ip rec :
  Dict.get ip (store_after src (startup tr) h) = Some rec ->
  (since rec = None <-> state rec = unknown).
Proof.
  revert rec. induction h as [| r h IH] using rev_ind; intros rec.
  - unfold store_after; simpl. intros H.
    rewrite (initial_records _ _ H). simpl. tauto.
  - rewrite store_after_snoc.
    set (new := classify (fst r) (observe (net (snd r)))).
    destruct (status_eqb
                (status_of ip (apply_outcome (fst r) new (change_time (snd r))
                                 (store_after src (startup tr) h)))
                (status_of ip (store_after src (startup tr) h))) eqn:E.
    + apply status_eqb_eq in E.
      rewrite (unchanged_status_keeps_record _ _ _ _ _ E). apply IH.
    + apply status_eqb_neq in E.
      destruct (changed_status_writes_record _ _ _ _ _ E) as [_ ->].
      intros [= <-]. simpl. split; [discriminate |].
      intros H. now apply classify_never_unknown in H.
Qed.

Lemma last_change_recorded src tr h ip rec :
  Dict.get ip (store_after src (startup tr) h) = Some rec ->
  In ip (map fst h) ->
  exists pre inp post,
    h = (pre ++ (ip, inp) :: post)%list
    /\ since rec = Some (change_time inp)
    /\ status_of ip (store_after src (startup tr) pre) <> state rec
    /\ unchanged_through ip src
         (after_probes src (startup tr) (pre ++ [(ip, inp)])%list) post.
Proof.
  revert rec. induction h as [| r h IH] using rev_ind; intros rec.
  - simpl. tauto.
  - rewrite store_after_snoc.
    set (new := classify (fst r) (observe (net (snd r)))).
    destruct (status_eqb
                (status_of ip (apply_outcome (fst r) new (change_time (snd r))
                                 (store_after src (startup tr) h)))
                (status_of ip (store_after src (startup tr) h))) eqn:E.
    + (* the last run leaves the status of ip alone *)
      apply status_eqb_eq in E.
      rewrite (unchanged_status_keeps_record _ _ _ _ _ E).
      intros Hget Hin0.
      assert (Hin : In ip (map fst h)).
      { rewrite map_app, in_app_iff in Hin0.
        destruct Hin0 as [Hin0 | [Hr | []]]; [assumption |].
        apply (known_status_was_probed src tr).
        rewrite <- E, <- Hr, status_after_own_run.
        apply classify_never_unknown. }
      destruct (IH rec Hget Hin) as (pre & inp & post & -> & Hs & Hc & Hu).
      exists pre, inp, (post ++ [r])%list.
      split; [now rewrite <- app_assoc |]. split; [assumption |].
      split; [assumption |].
      intros p1 x p2 Hsplit.
      destruct (split_snoc _ _ _ _ _ Hsplit) as [(-> & -> & ->) | (p2' & -> & Hp)].
      * rewrite <- !store_after_app. rewrite app_assoc, store_after_snoc.
        fold new.
        replace ((pre ++ [(ip, inp)]) ++ post)%list
          with (pre ++ (ip, inp) :: post)%list
          by (now rewrite <- app_assoc).
        exact E.
      * eapply Hu. exact Hp.
    + (* the last run changes the status of ip *)
      apply status_eqb_neq in E.
      destruct (changed_status_writes_record _ _ _ _ _ E) as [Ht Hrec].
      rewrite Hrec. intros [= <-] _. simpl.
      exists h, (snd r), [].
      split; [rewrite <- Ht; now destruct r |]. split; [reflexivity |].
      split.
      * intros Heq. apply E. rewrite Ht, status_after_own_run.
        symmetry. exact Heq.
      * intros p1 x p2 Hsplit. now destruct p1.
Qed.

(** C3. In every store reached from the startup initialization by any
    sequence of probe runs, a record has no [since] exactly when its state
    is ['unknown']; and once a target was probed, its [since] is the time
    read by the most recent run that changed its status: that run changed
    the status to the stored one, and no later run changed it again. *)
Theorem since_tracks_status_change (src : string) (tr : list event)
    (h : list (string * probe_input)) (ip : string) (rec : status_info) :
  Dict.get ip (store_after src (startup tr) h) = Some rec ->
  (since rec = None <-> state rec = unknown)
  /\ (In ip (map fst h) ->
      exists pre inp post,
        h = (pre ++ (ip, inp) :: post)%list
        /\ since rec = Some (change_time inp)
        /\ status_of ip (store_after src (startup tr) pre) <> state rec
        /\ unchanged_through ip src
             (after_probes src (startup tr) (pre ++ [(ip, inp)])%list) post).
Proof.
  intros Hget. split.
  - eapply store_invariant; eauto.
  - intros Hin. eapply last_change_recorded; eauto.
Qed.

(** *** The passes of the loop *)

Lemma EN_send_options_returns target src inp w :
  EN.send_options target src inp w
  = (Return tt, after_probe src w (target, inp)).
Proof.
  unfold after_probe. cbn [fst snd]. rewrite EN_send_options_run.
  reflexivity.
Qed.

Lemma EN_run_probes_run src order pf w :
  EN.run_probes src order pf w
  = (Return tt, after_probes src w (map (fun ip => (ip, pf ip)) order)).
Proof.
  revert w. induction order as [| ip order IH]; intros w; simpl.
  - reflexivity.
  - unfold bind. rewrite EN_send_options_returns. apply IH.
Qed.

Lemma EN_notify_alert_run subject body telegram_message w :
  EN.notify_alert subject body telegram_message w = (Return tt, w).
Proof.
  unfold EN.notify_alert, EN.send_email_alert, EN.send_telegram_alert,
    when, bind, ret. simpl.
  destruct telegram_message as [m |]; [destruct (Py.truthy m) |];
    reflexivity.
Qed.

Lemma EN_report_logic_run R c last w :
  EN.report_logic R c last w
  = (Return (if EN.report_due R (current_time c) last
             then current_time c else last), w).
Proof.
  unfold EN.report_logic.
  destruct (EN.report_due R (current_time c) last); [| reflexivity].
  unfold bind, read_status, ret.
  destruct (EN.failed_phones_report_lines _ _ _); [reflexivity |].
  now rewrite EN_notify_alert_run.
Qed.

Lemma EN_cycle_run R src c last w :
  EN.cycle R src c last w
  = (Return (if EN.report_due R (current_time c) last
             then current_time c else last),
     mk_world (phone_status (after_probes src w (runs_of c)))
              (out (after_probes src w (runs_of c)) ++ sleep_events c)).
Proof.
  unfold EN.cycle, bind. rewrite EN_run_probes_run, EN_report_logic_run.
  fold (runs_of c). unfold sleep_events, when, emit, ret.
  destruct (Qlt_le_dec 0 (EN.wait_time (joined_time c - start_time c)));
    [reflexivity |].
  now rewrite app_nil_r, world_eta.
Qed.

Lemma after_probes_trace_irrelevant src d tr1 tr2 h :
  phone_status (after_probes src (mk_world d tr1) h)
  = phone_status (after_probes src (mk_world d tr2) h).
Proof.
  revert d tr1 tr2. induction h as [| r h IH]; intros d tr1 tr2; simpl.
  - reflexivity.
  - unfold after_probes in *. simpl.
    rewrite <- (world_eta (after_probe src (mk_world d tr1) r)),
            <- (world_eta (after_probe src (mk_world d tr2) r)).
    rewrite !after_probe_store. simpl. apply IH.
Qed.

Lemma store_after_same_store src w1 w2 h :
  phone_status w1 = phone_status w2 ->
  store_after src w1 h = store_after src w2 h.
Proof.
  destruct w1, w2; simpl. intros ->. apply after_probes_trace_irrelevant.
Qed.

Lemma EN_cycles_run R src passes last w :
  exists last',
    fst (EN.cycles R src passes last w) = Return last'
    /\ phone_status (snd (EN.cycles R src passes last w))
       = store_after src w (flat_map runs_of passes).
Proof.
  revert last w. induction passes as [| c rest IH]; intros last w; simpl.
  - exists last. split; reflexivity.
  - unfold bind. rewrite EN_cycle_run.
    match goal with
    | |- context [EN.cycles R src rest ?l ?w1] =>
      destruct (IH l w1) as (last' & Hr & Hs)
    end.
    exists last'. split; [assumption |]. rewrite Hs.
    rewrite store_after_app. now apply store_after_same_store.
Qed.

Lemma EN_monitor_loop_run R autodetected started passes w :
  exists last,
    fst (EN.monitor_loop R autodetected started passes w) = Return last
    /\ phone_status (snd (EN.monitor_loop R autodetected started passes w))
       = store_after (EN.source_ip_actual autodetected) (startup (out w))
                     (flat_map runs_of passes).
Proof.
  unfold EN.monitor_loop, bind, write_status. apply EN_cycles_run.
Qed.

Lemma probed_target_is_known src w h ip :
  In ip (map fst h) -> status_of ip (store_after src w h) <> unknown.
Proof.
  induction h as [| r h IH] using rev_ind; [contradiction |].
  rewrite map_app, in_app_iff, store_after_snoc.
  destruct (String.eqb_spec (fst r) ip) as [<- | Hne].
  - intros _. rewrite status_after_own_run. apply classify_never_unknown.
  - intros [Hin | [Hr | []]]; [| contradiction].
    apply known_status_stays_known; auto using classify_never_unknown.
Qed.

(** C7. Every probe run returns, and what it returns is ['ok'] or
    ['failed'], never the initial ['unknown']; hence once a pass has probed
    every configured target, each of them has a record whose state is not
    ['unknown'], also after any further passes. *)
Theorem no_unknown_after_first_cycle :
  (forall target_ip msg net w,
      exists s w',
        EN.probe target_ip msg net w = (Return s, w')
        /\ (s = ok \/ s = failed))
  /\ (forall R autodetected started c rest w ip,
         complete_pass c ->
         In ip EN.TARGET_IPS ->
         exists last rec,
           fst (EN.monitor_loop R autodetected started (c :: rest) w)
           = Return last
           /\ Dict.get ip
                (phone_status
                   (snd (EN.monitor_loop R autodetected started (c :: rest)
                                         w)))
              = Some rec
           /\ state rec <> unknown).
Proof.
  split.
  - intros target_ip msg net w. rewrite EN_probe_run.
    eexists; eexists; split; [reflexivity | apply classify_ok_or_failed].
  - intros R autodetected started c rest w ip Hc Hin.
    destruct (EN_monitor_loop_run R autodetected started (c :: rest) w)
      as (last & Hr & Hs).
    rewrite Hs.
    destruct (known_status_has_record ip
                (store_after (EN.source_ip_actual autodetected)
                             (startup (out w)) (flat_map runs_of (c :: rest))))
      as (rec & Hget & Hst).
    + apply probed_target_is_known. simpl.
      rewrite map_app, in_app_iff. left.
      unfold runs_of. rewrite map_map. simpl. rewrite map_id. now apply Hc.
    + exists last, rec. auto.
Qed.

(** *** Arithmetic of the duration *)

Lemma Qfloor_div_60 (x : Q) : Qfloor (x / 60) = (Qfloor x / 60)%Z.
Proof.
  destruct x as [a b]. unfold Qdiv, Qmult, Qinv, Qfloor. simpl.
  rewrite Z.mul_1_r, Pos2Z.inj_mul. rewrite Z.div_div; lia.
Qed.

Lemma Qfloor_minus_Z (x : Q) (k : Z) :
  Qfloor (x - inject_Z k) = (Qfloor x - k)%Z.
Proof.
  destruct x as [a b]. unfold Qminus, Qplus, Qopp, inject_Z, Qfloor. simpl.
  rewrite Z.mul_1_r, Pos.mul_1_r.
  replace (a + - k * Z.pos b)%Z with (a + (- k) * Z.pos b)%Z by lia.
  rewrite Z.div_add by lia. lia.
Qed.

Lemma int_comp (x y : Q) : x == y -> Py.int x = Py.int y.
Proof.
  intros H. unfold Py.int. rewrite (Qleb_comp 0 0 (Qeq_refl 0) x y H).
  now rewrite (Qfloor_comp x y H), (Qceiling_comp x y H).
Qed.

Lemma int_of_Z (z : Z) : Py.int (inject_Z z) = z.
Proof.
  unfold Py.int. rewrite Qfloor_Z, Qceiling_Z. now destruct (Qle_bool _ _).
Qed.

Lemma int_nonneg (x : Q) : 0 <= x -> Py.int x = Qfloor x.
Proof.
  intros H. unfold Py.int. apply Qle_bool_iff in H. now rewrite H.
Qed.

Lemma duration_fields (d : Q) :
  EN.duration_str d
  = Py.format_02d (Qfloor d / 3600)
    ++ ":" ++ Py.format_02d ((Qfloor d / 60) mod 60)
    ++ ":" ++ Py.format_02d (Qfloor d mod 60).
Proof.
  unfold EN.duration_str, Py.divmod.
  set (m1 := Qfloor (d / 60)).
  set (h := Qfloor (inject_Z m1 / 60)).
  assert (Hm1 : m1 = (Qfloor d / 60)%Z) by apply Qfloor_div_60.
  assert (Hh : h = (Qfloor d / 3600)%Z).
  { unfold h. rewrite Qfloor_div_60, Qfloor_Z, Hm1, Z.div_div by lia.
    reflexivity. }
  assert (Hs : Qfloor (d - inject_Z m1 * 60) = (Qfloor d mod 60)%Z).
  { change 60%Q with (inject_Z 60). rewrite <- inject_Z_mult.
    rewrite Qfloor_minus_Z, Hm1, Z.mod_eq by lia. lia. }
  rewrite int_of_Z.
  rewrite (int_comp (inject_Z m1 - inject_Z h * 60)
                    (inject_Z (m1 - h * 60))).
  2:{ change 60%Q with (inject_Z 60).
      rewrite <- inject_Z_mult. unfold Zminus.
      rewrite inject_Z_plus, inject_Z_opp. reflexivity. }
  rewrite int_of_Z, int_nonneg.
  2:{ eapply Qle_trans; [| apply Qfloor_le]. rewrite Hs.
      rewrite <- (Zle_Qle 0). apply Z.mod_pos_bound. lia. }
  rewrite Hs, Hh.
  replace (m1 - Qfloor d / 3600 * 60)%Z with ((Qfloor d / 60) mod 60)%Z;
    [reflexivity |].
  rewrite Z.mod_eq, Z.div_div, Hm1 by lia.
  change (60 * 60)%Z with 3600%Z. lia.
Qed.

Lemma format_02d_two_chars (z : Z) :
  (0 <= z < 60)%Z -> String.length (Py.format_02d z) = 2%nat.
Proof.
  intros [H0 H1]. destruct z as [| p | p]; try lia; [reflexivity |].
  repeat (destruct p as [p | p |]; try lia; try reflexivity).
Qed.

(** C5. The duration is rendered from its whole seconds [D] as
    [D / 3600], [(D / 60) mod 60] and [D mod 60], each formatted with
    ['02d'] and joined by colons; the minutes and the seconds always take
    two characters, and the hour count is not reduced modulo 24.  From
    [since = T], the reading [T + 3661] gives ["01:01:01"] and the reading
    [T + 90000] gives ["25:00:00"]. *)
Theorem duration_format (T : Q) :
  EN.duration_str (T + 3661 - T) = "01:01:01"
  /\ EN.duration_str (T + 90000 - T) = "25:00:00"
  /\ (forall d : Q,
        EN.duration_str d
        = Py.format_02d (Qfloor d / 3600)
          ++ ":" ++ Py.format_02d ((Qfloor d / 60) mod 60)
          ++ ":" ++ Py.format_02d (Qfloor d mod 60))
  /\ (forall d : Q,
        String.length (Py.format_02d ((Qfloor d / 60) mod 60)) = 2%nat
        /\ String.length (Py.format_02d (Qfloor d mod 60)) = 2%nat)
  /\ (forall strftime ip now,
        EN.report_line strftime now (ip, mk_info failed (Some T))
        = if Qeq_bool T 0
          then ["- " ++ ip ++ ": unavailable (exact failure time unknown)"]
          else ["- " ++ ip ++ ": unavailable since " ++ strftime T
                ++ " (duration: " ++ EN.duration_str (now - T) ++ ")"]).
Proof.
  split; [| split; [| split; [| split]]].
  - rewrite duration_fields.
    rewrite (Qfloor_comp (T + 3661 - T) 3661) by ring. reflexivity.
  - rewrite duration_fields.
    rewrite (Qfloor_comp (T + 90000 - T) 90000) by ring. reflexivity.
  - apply duration_fields.
  - intros d. split; apply format_02d_two_chars; apply Z.mod_pos_bound; lia.
  - intros strftime ip now. unfold EN.report_line. simpl.
    destruct (Qeq_bool T 0); reflexivity.
Qed.

Example duration_examples :
  (EN.duration_str 0, EN.duration_str 59, EN.duration_str 60,
   EN.duration_str 3599, EN.duration_str (7 # 2), EN.duration_str 360000)
  = ("00:00:00", "00:00:59", "00:01:00", "00:59:59", "00:00:03",
     "100:00:00").
Proof. reflexivity. Qed.

(** *** The sleep *)

Lemma sleep_events_cases (c : cycle_input) :
  sleep_events c
  = if Qlt_le_dec (joined_time c - start_time c) EN.INTERVAL
    then [Sleep (EN.INTERVAL - (joined_time c - start_time c))]
    else [].
Proof.
  unfold sleep_events, EN.wait_time, Py.max0.
  set (e := joined_time c - start_time c).
  destruct (Qlt_le_dec e EN.INTERVAL) as [Hlt | Hge].
  - assert (H : 0 < EN.INTERVAL - e)
      by (rewrite <- (Qlt_minus_iff e EN.INTERVAL); exact Hlt).
    destruct (Qlt_le_dec 0 (EN.INTERVAL - e)) as [_ | Hle].
    + destruct (Qlt_le_dec 0 (EN.INTERVAL - e)) as [_ | Hle];
        [reflexivity |].
      exfalso. apply (Qlt_irrefl 0). eapply Qlt_le_trans; eauto.
    + exfalso. apply (Qlt_irrefl 0). eapply Qlt_le_trans; eauto.
  - destruct (Qlt_le_dec 0 (EN.INTERVAL - e)) as [Hpos | _].
    + exfalso. rewrite <- (Qlt_minus_iff e EN.INTERVAL) in Hpos.
      apply (Qlt_irrefl e). eapply Qlt_le_trans; eauto.
    + destruct (Qlt_le_dec 0 0) as [H0 | _]; [| reflexivity].
      exfalso. exact (Qlt_irrefl 0 H0).
Qed.

(** C6. The wait is [max(0, INTERVAL - elapsed)], where [elapsed] is the
    measured duration of the probes of the pass, so the probes and the wait
    together last [max(INTERVAL, elapsed)].  When [elapsed] is below
    [INTERVAL] the pass ends by sleeping exactly [INTERVAL - elapsed]; when
    [elapsed] reaches or exceeds [INTERVAL] the pass issues no sleep at all,
    so the next pass follows at once. *)
Theorem sleep_is_remainder (R : Z) (src : string) (c : cycle_input)
    (last : Q) (w : world) :
  let elapsed := joined_time c - start_time c in
  EN.wait_time elapsed == Qmax 0 (EN.INTERVAL - elapsed)
  /\ elapsed + EN.wait_time elapsed == Qmax EN.INTERVAL elapsed
  /\ exists last' w1,
      pass_before_sleep R src c last w = (Return last', w1)
      /\ EN.cycle R src c last w
         = (Return last',
            mk_world (phone_status w1)
              (out w1
               ++ if Qlt_le_dec elapsed EN.INTERVAL
                  then [Sleep (EN.INTERVAL - elapsed)]
                  else [])).
Proof.
  intros elapsed. split; [| split].
  - unfold EN.wait_time, Py.max0.
    destruct (Qlt_le_dec 0 (EN.INTERVAL - elapsed)) as [H | H].
    + symmetry. apply Q.max_r. now apply Qlt_le_weak.
    + symmetry. now apply Q.max_l.
  - unfold EN.wait_time, Py.max0.
    destruct (Qlt_le_dec 0 (EN.INTERVAL - elapsed)) as [H | H].
    + rewrite Q.max_l; [ring | lra].
    + rewrite Q.max_r; [ring | lra].
  - unfold pass_before_sleep, bind.
    rewrite EN_run_probes_run, EN_report_logic_run, EN_cycle_run.
    fold (runs_of c). rewrite sleep_events_cases.
    eexists; eexists; split; reflexivity.
Qed.

(** *** The sinks *)

Lemma send_email_alert_run cfg smtp subject body w :
  email_utils.send_email_alert cfg smtp subject body w
  = (Return tt,
     mk_world (phone_status w) (out w ++ email_events cfg smtp subject body)).
Proof.
  unfold email_utils.send_email_alert, email_utils.smtp_session,
    email_events, try_except, bind, debug_print, emit, raise.
  destruct smtp as [| e]; simpl.
  - destruct (email_utils.with_tls_and_login cfg); simpl;
      now rewrite <- app_assoc.
  - destruct (email_utils.with_tls_and_login cfg); reflexivity.
Qed.

Lemma send_telegram_alert_run cfg http message w :
  telegram_utils.send_telegram_alert cfg http message w
  = (Return tt,
     mk_world (phone_status w) (out w ++ telegram_events cfg http message)).
Proof.
  unfold telegram_utils.send_telegram_alert, telegram_events,
    telegram_configured, telegram_utils.requests_post.
  destruct (truthy_opt (telegram_utils.TELEGRAM_BOT_TOKEN cfg)); simpl;
    [| reflexivity].
  destruct (truthy_opt (telegram_utils.TELEGRAM_CHAT_ID cfg)); simpl;
    [| reflexivity].
  destruct (opt_eqb (telegram_utils.TELEGRAM_BOT_TOKEN cfg) _);
    simpl; [reflexivity |].
  destruct (opt_eqb (telegram_utils.TELEGRAM_CHAT_ID cfg) _);
    simpl; [reflexivity |].
  unfold try_except, bind, emit, raise, ret.
  destruct http as [code text | e]; simpl; [| reflexivity].
  destruct (code =? 200)%Z; simpl; now rewrite <- app_assoc.
Qed.

Lemma RU_notify_alert_run o subject body telegram_message w :
  RU.notify_alert o subject body telegram_message w
  = (Return tt,
     mk_world (phone_status w)
              (out w ++ RU_notify_events o subject body telegram_message)).
Proof.
  unfold RU.notify_alert, RU.send_email_alert, RU.send_telegram_alert,
    RU_notify_events, when, bind. simpl.
  rewrite send_email_alert_run.
  destruct telegram_message as [m |]; [destruct (Py.truthy m) |]; simpl.
  - rewrite send_telegram_alert_run. simpl. now rewrite <- app_assoc.
  - unfold ret. now rewrite app_nil_r.
  - unfold ret. now rewrite app_nil_r.
Qed.

(** *** The Russian script *)

Lemma RU_probe_run target msg net w :
  RU.probe target msg net w
  = (Return (classify target (observe net)),
     mk_world (phone_status w)
              (out w ++ probe_events target RU.TARGET_PORT msg net)).
Proof.
  destruct net as [so st sti rf].
  unfold RU.probe, observe, probe_events; run_step.
  destruct so as [e |];
    [destruct e; simpl; rewrite app_nil_r, world_eta; reflexivity |].
  destruct st as [e |]; [destruct e; reflexivity |].
  destruct sti as [e |];
    [destruct e; simpl; rewrite <- app_assoc; reflexivity |].
  destruct rf as [e | [data [ip port]]];
    [destruct e; simpl; rewrite <- app_assoc; reflexivity |].
  simpl. unfold success_line, first_line.
  destruct (String.eqb ip target); simpl;
    [| rewrite <- app_assoc; reflexivity].
  destruct (Py.truthy (Py.decode_utf8_ignore data)) eqn:T; simpl.
  - destruct (Py.splitlines (Py.decode_utf8_ignore data)) as [| l ls];
      simpl; [rewrite <- app_assoc; reflexivity |].
    destruct (Py.contains "SIP/2.0 200 OK" l); simpl;
      rewrite <- app_assoc; reflexivity.
  - rewrite (truthy_false _ T). simpl. rewrite <- app_assoc. reflexivity.
Qed.

Lemma RU_probe_agrees target msg net w :
  RU.probe target msg net w = EN.probe target msg net w.
Proof. now rewrite RU_probe_run, EN_probe_run. Qed.

Lemma RU_send_options_agrees target src inp w :
  RU.send_options target src inp w = EN.send_options target src inp w.
Proof.
  unfold RU.send_options, EN.send_options, bind.
  change RU.create_options_message with EN.create_options_message.
  change RU.TARGET_PORT with EN.TARGET_PORT.
  change RU.SOURCE_PORT with EN.SOURCE_PORT.
  rewrite RU_probe_agrees. reflexivity.
Qed.

Lemma RU_run_probes_agrees src order pf w :
  RU.run_probes src order pf w = EN.run_probes src order pf w.
Proof.
  revert w. induction order as [| ip order IH]; intros w; simpl.
  - reflexivity.
  - unfold bind. rewrite RU_send_options_agrees.
    destruct (EN.send_options ip src (pf ip) w) as [[[] | e] w']; auto.
Qed.

Lemma RU_report_logic_run R c last w :
  RU.report_logic R c last w
  = (Return (if RU.report_due R (current_time c) last
             then current_time c else last),
     mk_world (phone_status w)
              (out w ++ RU_report_events R c last (phone_status w))).
Proof.
  unfold RU.report_logic, RU_report_events.
  destruct (RU.report_due R (current_time c) last);
    [| unfold ret; now rewrite app_nil_r, world_eta].
  unfold bind, read_status, ret.
  destruct (RU.failed_phones_report_lines _ _ _) as [| l ls] eqn:L.
  - now rewrite app_nil_r, world_eta.
  - now rewrite RU_notify_alert_run.
Qed.

Lemma RU_cycle_run R src c last w :
  RU.cycle R src c last w
  = (Return (if EN.report_due R (current_time c) last
             then current_time c else last),
     let w1 := after_probes src w (runs_of c) in
     mk_world (phone_status w1)
              (out w1 ++ RU_report_events R c last (phone_status w1)
               ++ sleep_events c)).
Proof.
  unfold RU.cycle, bind.
  rewrite RU_run_probes_agrees, EN_run_probes_run, RU_report_logic_run.
  fold (runs_of c). change RU.wait_time with EN.wait_time.
  unfold sleep_events, when, emit, ret. simpl.
  destruct (Qlt_le_dec 0 (EN.wait_time (joined_time c - start_time c)));
    simpl.
  - now rewrite <- app_assoc.
  - now rewrite app_nil_r.
Qed.

Lemma report_lines_agree strftime now d :
  List.length (RU.failed_phones_report_lines strftime now d)
  = List.length (EN.failed_phones_report_lines strftime now d).
Proof.
  unfold RU.failed_phones_report_lines, EN.failed_phones_report_lines,
    Dict.items.
  induction d as [| [ip info] d IH]; simpl; [reflexivity |].
  rewrite !List.length_app, IH. f_equal.
  destruct (status_eqb (state info) failed); [| reflexivity].
  destruct (truthy_time (since info)); reflexivity.
Qed.

Lemma report_lines_iff_failed strftime now d :
  match RU.failed_phones_report_lines strftime now d with
  | [] => false
  | _ :: _ => true
  end = some_failed d.
Proof.
  unfold RU.failed_phones_report_lines, some_failed, Dict.items.
  induction d as [| [ip info] d IH]; simpl; [reflexivity |].
  destruct (status_eqb (state info) failed); simpl; [| exact IH].
  destruct (truthy_time (since info)); reflexivity.
Qed.

(** C3, at a concrete history: one timed-out probe of the first target. *)
Lemma since_tracks_status_change_witness :
  Dict.get "172.16.31.144"
    (store_after "192.168.1.100" (startup [])
       [("172.16.31.144", sample_probe net_timeout 5)])
  = Some (mk_info failed (Some 5))
  /\ (since (mk_info failed (Some 5)) = None
      <-> state (mk_info failed (Some 5)) = unknown).
Proof.
  split; [reflexivity |].
  apply (since_tracks_status_change "192.168.1.100" []
           [("172.16.31.144", sample_probe net_timeout 5)]
           "172.16.31.144" (mk_info failed (Some 5))).
  reflexivity.
Defined.

(** C7, at the scenario: after the first pass both targets are known. *)
Lemma no_unknown_after_first_cycle_witness :
  complete_pass first_pass
  /\ In "192.168.13.101" EN.TARGET_IPS
  /\ exists last rec,
      fst (EN.monitor_loop 3600 None 0 [first_pass] (mk_world [] []))
      = Return last
      /\ Dict.get "192.168.13.101"
           (phone_status
              (snd (EN.monitor_loop 3600 None 0 [first_pass]
                                    (mk_world [] []))))
         = Some rec
      /\ state rec <> unknown.
Proof.
  assert (Hc : complete_pass first_pass) by (intros ip H; exact H).
  assert (Hin : In "192.168.13.101" EN.TARGET_IPS)
    by (right; left; reflexivity).
  split; [exact Hc |]. split; [exact Hin |].
  exact (proj2 no_unknown_after_first_cycle 3600%Z None 0 first_pass []
               (mk_world [] []) "192.168.13.101" Hc Hin).
Defined.

(** *** The report of the Russian script follows the policy *)

Lemma email_events_are_sink_events cfg smtp subject body :
  existsb is_sink_event (email_events cfg smtp subject body) = true.
Proof. destruct smtp; reflexivity. Qed.

Lemma RU_report_follows_policy R c last w :
  fst (RU.report_logic R c last w)
  = Return (if RU.report_due R (current_time c) last
            then current_time c else last)
  /\ phone_status (snd (RU.report_logic R c last w)) = phone_status w
  /\ existsb is_sink_event (RU_report_events R c last (phone_status w))
     = RU.report_due R (current_time c) last && some_failed (phone_status w)
  /\ (RU.report_due R (current_time c) last = true
      <-> inject_Z R <= current_time c - last).
Proof.
  rewrite RU_report_logic_run. simpl.
  split; [reflexivity |]. split; [reflexivity |]. split.
  - unfold RU_report_events.
    destruct (RU.report_due R (current_time c) last); [| reflexivity].
    rewrite <- (report_lines_iff_failed (strftime_local c) (current_time c)).
    destruct (RU.failed_phones_report_lines _ _ _); [reflexivity |].
    unfold RU_notify_events. rewrite existsb_app.
    now rewrite email_events_are_sink_events.
  - unfold RU.report_due. apply Qle_bool_iff.
Qed.

Lemma EN_report_fire_condition R now last :
  EN.report_due R now last = true <-> inject_Z R <= now - last.
Proof. unfold EN.report_due. apply Qle_bool_iff. Qed.

(** C4, evaluated on the scenario.  Both scripts find the report due in the
    second pass and advance [last_report_time] to its reading, and both hold
    the same store with one failed target.  The Russian script then calls
    the two sinks; the English script, whose global names
    [send_email_alert] and [send_telegram_alert] denote the [pass] bodies
    that end its file, leaves no sink event at all. *)
Theorem EN_report_reaches_no_sink :
  let en := EN.monitor_loop 3600 None 0 [first_pass; later_pass]
                            (mk_world [] []) in
  let ru := RU.monitor_loop 3600 None 0 [first_pass; later_pass]
                            (mk_world [] []) in
  fst en = Return (current_time later_pass)
  /\ fst ru = Return (current_time later_pass)
  /\ phone_status (snd en)
     = [("172.16.31.144", mk_info ok (Some 100));
        ("192.168.13.101", mk_info failed (Some 100))]
  /\ phone_status (snd ru) = phone_status (snd en)
  /\ some_failed (phone_status (snd en)) = true
  /\ filter is_sink_event (out (snd en)) = []
  /\ filter is_sink_event (out (snd ru))
     = [Sendmail true (Some "monitor@example.org") (Some "ops@example.org")
                 (RU_subject later_pass) (RU_body scenario_lines);
        DebugPrint (EmailSent (RU_subject later_pass));
        HttpPost "42" (RU_telegram_msg scenario_lines);
        PrintLine TelegramSent].
Proof. vm_compute. repeat split; reflexivity. Qed.

(** C8. An exception raised inside a sink stays inside it: the e-mail sink
    hands the failure to [debug_print], the Telegram sink to [print], and
    both return normally.  Whatever the sinks meet, [notify_alert] (of either
    script) and the report logic return normally and leave every stored
    state and [since] as they were, and the store after a pass is the store
    after its probes, whatever happens to the notifications. *)
Theorem sink_failures_are_swallowed :
  (forall cfg e subject body w,
      email_utils.send_email_alert cfg (email_utils.SmtpRaises e) subject
                                   body w
      = (Return tt,
         mk_world (phone_status w) (out w ++ [DebugPrint (EmailFailed e)])))
  /\ (forall cfg e message w,
         telegram_utils.send_telegram_alert cfg (telegram_utils.HttpRaises e)
                                            message w
         = (Return tt,
            mk_world (phone_status w)
              (out w ++ [if telegram_configured cfg
                         then PrintLine (TelegramException e)
                         else DebugPrint TelegramNotConfigured])))
  /\ (forall cfg smtp subject body w,
         fst (email_utils.send_email_alert cfg smtp subject body w)
         = Return tt
         /\ phone_status
              (snd (email_utils.send_email_alert cfg smtp subject body w))
            = phone_status w)
  /\ (forall cfg http message w,
         fst (telegram_utils.send_telegram_alert cfg http message w)
         = Return tt
         /\ phone_status
              (snd (telegram_utils.send_telegram_alert cfg http message w))
            = phone_status w)
  /\ (forall o subject body telegram_message w,
         fst (RU.notify_alert o subject body telegram_message w) = Return tt
         /\ phone_status
              (snd (RU.notify_alert o subject body telegram_message w))
            = phone_status w)
  /\ (forall subject body telegram_message w,
         EN.notify_alert subject body telegram_message w = (Return tt, w))
  /\ (forall R c last w,
         fst (RU.report_logic R c last w)
         = Return (if RU.report_due R (current_time c) last
                   then current_time c else last)
         /\ phone_status (snd (RU.report_logic R c last w)) = phone_status w)
  /\ (forall R src c last w,
         fst (RU.cycle R src c last w)
         = Return (if RU.report_due R (current_time c) last
                   then current_time c else last)
         /\ phone_status (snd (RU.cycle R src c last w))
            = store_after src w (runs_of c))
  /\ (forall R src c last w,
         fst (EN.cycle R src c last w)
         = Return (if EN.report_due R (current_time c) last
                   then current_time c else last)
         /\ phone_status (snd (EN.cycle R src c last w))
            = store_after src w (runs_of c)).
Proof.
  repeat split; intros.
  - now rewrite send_email_alert_run.
  - rewrite send_telegram_alert_run. unfold telegram_events.
    now destruct (telegram_configured cfg).
  - now rewrite send_email_alert_run.
  - now rewrite send_email_alert_run.
  - now rewrite send_telegram_alert_run.
  - now rewrite send_telegram_alert_run.
  - now rewrite RU_notify_alert_run.
  - now rewrite RU_notify_alert_run.
  - apply EN_notify_alert_run.
  - now rewrite RU_report_logic_run.
  - now rewrite RU_report_logic_run.
  - now rewrite RU_cycle_run.
  - now rewrite RU_cycle_run.
  - now rewrite EN_cycle_run.
  - now rewrite EN_cycle_run.
Qed.

Example smtp_failure_in_a_report :
  let o := {| mail_cfg := mail_cfg working_outside;
              smtp := email_utils.SmtpRaises os_error;
              telegram_cfg := telegram_cfg working_outside;
              http := telegram_utils.HttpRaises other_exception |} in
  RU.notify_alert o "subject" "body" (Some "message") (startup [])
  = (Return tt,
     mk_world EN.initial_status
              [DebugPrint (EmailFailed os_error);
               PrintLine (TelegramException other_exception)]).
Proof. reflexivity. Qed.

Lemma RU_report_events_all_sink R c last d :
  filter (fun ev => negb (is_sink_event ev)) (RU_report_events R c last d)
  = [].
Proof.
  unfold RU_report_events.
  destruct (RU.report_due _ _ _); [| reflexivity].
  destruct (RU.failed_phones_report_lines _ _ _) as [| l ls];
    [reflexivity |].
  unfold RU_notify_events. rewrite filter_app. simpl.
  unfold email_events, telegram_events.
  destruct (smtp (world_outside c)); simpl;
    destruct (telegram_configured _); simpl;
      destruct (http (world_outside c)); reflexivity.
Qed.

(** C10. On every input the two scripts build the same message, classify
    the run alike, update the store alike, find the report due at the same
    readings, format durations alike and compute the same wait; their
    settings and initial stores are equal, their reports have a line for the
    same records, and a pass leaves the same store, the same
    [last_report_time] and, the events of the sinks apart, the same trace
    in both. *)
Theorem scripts_agree :
  (forall target_ip target_port source_ip source_port drawn,
      RU.create_options_message target_ip target_port source_ip source_port
                                drawn
      = EN.create_options_message target_ip target_port source_ip
                                  source_port drawn)
  /\ (forall target_ip msg net w,
         RU.probe target_ip msg net w = EN.probe target_ip msg net w)
  /\ (forall target_ip current_run_status now w,
         RU.update_status target_ip current_run_status now w
         = EN.update_status target_ip current_run_status now w)
  /\ (forall target_ip src inp w,
         RU.send_options target_ip src inp w
         = EN.send_options target_ip src inp w)
  /\ (forall R now last, RU.report_due R now last = EN.report_due R now last)
  /\ (forall d, RU.duration_str d = EN.duration_str d)
  /\ (forall elapsed, RU.wait_time elapsed = EN.wait_time elapsed)
  /\ (RU.TARGET_IPS, RU.SOURCE_IP, RU.SOURCE_PORT, RU.TARGET_PORT,
      RU.INTERVAL, RU.USER_AGENT, RU.RECEIVE_TIMEOUT, RU.initial_status)
     = (EN.TARGET_IPS, EN.SOURCE_IP, EN.SOURCE_PORT, EN.TARGET_PORT,
        EN.INTERVAL, EN.USER_AGENT, EN.RECEIVE_TIMEOUT, EN.initial_status)
  /\ (forall autodetected,
         RU.source_ip_actual autodetected = EN.source_ip_actual autodetected)
  /\ (forall strftime now d,
         List.length (RU.failed_phones_report_lines strftime now d)
         = List.length (EN.failed_phones_report_lines strftime now d))
  /\ (forall R src c last w,
         fst (RU.cycle R src c last w) = fst (EN.cycle R src c last w)
         /\ phone_status (snd (RU.cycle R src c last w))
            = phone_status (snd (EN.cycle R src c last w))
         /\ filter (fun ev => negb (is_sink_event ev))
                   (out (snd (RU.cycle R src c last w)))
            = filter (fun ev => negb (is_sink_event ev))
                     (out (snd (EN.cycle R src c last w)))).
Proof.
  repeat split; intros; try reflexivity.
  - apply RU_probe_agrees.
  - apply RU_send_options_agrees.
  - apply report_lines_agree.
  - now rewrite RU_cycle_run, EN_cycle_run.
  - now rewrite RU_cycle_run, EN_cycle_run.
  - rewrite RU_cycle_run, EN_cycle_run. simpl.
    rewrite !filter_app, RU_report_events_all_sink. reflexivity.
Qed.

(** *** The identifiers of the request *)

Lemma string_length_app (s1 s2 : string) :
  String.length (s1 ++ s2) = (String.length s1 + String.length s2)%nat.
Proof. induction s1; simpl; auto. Qed.

Lemma string_app_assoc (s1 s2 s3 : string) :
  (s1 ++ s2) ++ s3 = s1 ++ (s2 ++ s3).
Proof. induction s1; simpl; congruence. Qed.

Lemma string_app_inv_head (s x y : string) : s ++ x = s ++ y -> x = y.
Proof. induction s as [| a s IH]; simpl; [auto | intros [= H]; auto]. Qed.

Lemma snoc_inj (s s' : string) (c c' : ascii) :
  s ++ String c "" = s' ++ String c' "" -> s = s' /\ c = c'.
Proof.
  revert s'. induction s as [| a s IH]; intros [| a' s']; simpl; intros H.
  - injection H as ->. auto.
  - injection H as _ H. destruct s'; discriminate.
  - injection H as _ H. destruct s; discriminate.
  - injection H as -> H. destruct (IH _ H) as [-> ->]. auto.
Qed.

Lemma take_app (s1 s2 : string) :
  Py.take (String.length s1) (s1 ++ s2) = s1.
Proof.
  unfold Py.take. induction s1 as [| a s1 IH]; simpl.
  - now destruct s2.
  - now rewrite IH.
Qed.

Lemma hex_length (k : nat) (n : N) : String.length (uuid.hex k n) = k.
Proof.
  revert n. induction k as [| k IH]; intros n; simpl; [reflexivity |].
  rewrite string_length_app, IH. simpl. lia.
Qed.

Lemma hex_digit_inj (d d' : N) :
  (d < 16)%N -> (d' < 16)%N ->
  uuid.hex_digit d = uuid.hex_digit d' -> d = d'.
Proof.
  intros Hd Hd' H.
  assert (E : forall x, (x < 16)%N ->
                        N_of_ascii (uuid.hex_digit x)
                        = (if (x <? 10)%N then x + 48 else x + 87)%N).
  { intros x Hx.
    assert (Hc : (x = 0 \/ x = 1 \/ x = 2 \/ x = 3 \/ x = 4 \/ x = 5 \/ x = 6
                  \/ x = 7 \/ x = 8 \/ x = 9 \/ x = 10 \/ x = 11 \/ x = 12
                  \/ x = 13 \/ x = 14 \/ x = 15)%N) by lia.
    repeat (destruct Hc as [-> | Hc]; [reflexivity |]). now subst. }
  apply (f_equal N_of_ascii) in H. rewrite !E in H by assumption.
  destruct (N.ltb_spec d 10), (N.ltb_spec d' 10); lia.
Qed.

Lemma hex_inj (k : nat) (n m : N) :
  uuid.hex k n = uuid.hex k m -> (n mod 16 ^ N.of_nat k = m mod 16 ^ N.of_nat k)%N.
Proof.
  revert n m. induction k as [| k IH]; intros n m H.
  - simpl. now rewrite !N.mod_1_r.
  - simpl in H. apply snoc_inj in H. destruct H as [Hh Hd].
    apply IH in Hh.
    apply hex_digit_inj in Hd; try (apply N.mod_lt; discriminate).
    rewrite Nat2N.inj_succ, N.pow_succ_r'.
    rewrite !(N.Div0.mod_mul_r _ 16). congruence.
Qed.

Lemma hex_split (a b : nat) (n : N) :
  uuid.hex (a + b) n = uuid.hex a (n / 16 ^ N.of_nat b) ++ uuid.hex b n.
Proof.
  revert n. induction b as [| b IH]; intros n.
  - rewrite Nat.add_0_r. simpl. rewrite N.div_1_r.
    induction (uuid.hex a n); simpl; congruence.
  - rewrite Nat.add_succ_r. cbn [uuid.hex]. rewrite IH, string_app_assoc.
    rewrite N.Div0.div_div, Nat2N.inj_succ, N.pow_succ_r'. reflexivity.
Qed.

Lemma hyphenate_take (h8 h24 : string) :
  String.length h8 = 8%nat ->
  Py.take 8 (uuid.hyphenate (h8 ++ h24)) = h8.
Proof.
  intros L. unfold uuid.hyphenate.
  assert (E : Py.slice 0 8 (h8 ++ h24) = h8).
  { unfold Py.slice. simpl. rewrite <- L at 1. apply take_app. }
  rewrite E. rewrite <- L at 1. apply take_app.
Qed.

Lemma hyphenate_inj (h h' : string) :
  String.length h = 32%nat -> String.length h' = 32%nat ->
  uuid.hyphenate h = uuid.hyphenate h' -> h = h'.
Proof.
  intros L L'.
  do 32 (destruct h as [| ? h]; [discriminate |]).
  destruct h; [| discriminate].
  do 32 (destruct h' as [| ? h']; [discriminate |]).
  destruct h'; [| discriminate].
  cbn. intros H. injection H. intros. subst. reflexivity.
Qed.

Lemma str_take_8 (u : uuid.t) :
  Py.take 8 (uuid.str u) = uuid.hex 8 (u / 2 ^ 96).
Proof.
  unfold uuid.str. change 32%nat with (8 + 24)%nat. rewrite hex_split.
  rewrite hyphenate_take by apply hex_length. reflexivity.
Qed.

Lemma str_inj (u u' : uuid.t) :
  uuid.in_range u -> uuid.in_range u' -> uuid.str u = uuid.str u' -> u = u'.
Proof.
  unfold uuid.in_range, uuid.str. intros Hu Hu' H.
  apply hyphenate_inj in H; try apply hex_length.
  apply hex_inj in H.
  assert (E : (16 ^ N.of_nat 32 = 2 ^ 128)%N) by reflexivity.
  rewrite E in H. now rewrite !N.mod_small in H.
Qed.

Lemma prefix_inj (u u' : uuid.t) :
  uuid.in_range u -> uuid.in_range u' ->
  uuid.hex 8 (u / 2 ^ 96) = uuid.hex 8 (u' / 2 ^ 96) ->
  (u / 2 ^ 96 = u' / 2 ^ 96)%N.
Proof.
  unfold uuid.in_range. intros Hu Hu' H. apply hex_inj in H.
  assert (E : (16 ^ N.of_nat 8 = 2 ^ 32)%N) by reflexivity.
  rewrite E in H.
  assert (B : forall x, (x < 2 ^ 128)%N -> (x / 2 ^ 96 < 2 ^ 32)%N).
  { intros x Hx. apply N.Div0.div_lt_upper_bound.
    now change (2 ^ 96 * 2 ^ 32)%N with (2 ^ 128)%N. }
  now rewrite !N.mod_small in H by auto.
Qed.

(** C9, as amended.  The Call-ID is the whole UUID, so two draws give the
    same Call-ID only when they are the same UUID.  The branch and the tag
    keep the first eight hexadecimal digits of their UUID: two draws give
    the same branch, or the same tag, exactly when their top 32 bits are
    equal. *)
Theorem identifiers_follow_draws (u u' : uuid.t) :
  uuid.in_range u -> uuid.in_range u' ->
  (EN.call_id_of u = EN.call_id_of u' <-> u = u')
  /\ (EN.branch_of u = EN.branch_of u' <-> (u / 2 ^ 96 = u' / 2 ^ 96)%N)
  /\ (EN.tag_of u = EN.tag_of u' <-> (u / 2 ^ 96 = u' / 2 ^ 96)%N).
Proof.
  intros Hu Hu'. unfold EN.call_id_of, EN.branch_of, EN.tag_of.
  rewrite !str_take_8. repeat split.
  - now apply str_inj.
  - now intros ->.
  - intros H. apply string_app_inv_head in H. now apply prefix_inj.
  - now intros ->.
  - now apply prefix_inj.
  - now intros ->.
Qed.

Lemma identifiers_follow_draws_witness :
  uuid.in_range (snd (fst sample_draws))
  /\ uuid.in_range (snd (fst other_draws))
  /\ (EN.branch_of (snd (fst sample_draws))
      = EN.branch_of (snd (fst other_draws))
      <-> (snd (fst sample_draws) / 2 ^ 96
           = snd (fst other_draws) / 2 ^ 96)%N).
Proof.
  assert (H1 : uuid.in_range (snd (fst sample_draws))) by reflexivity.
  assert (H2 : uuid.in_range (snd (fst other_draws))) by reflexivity.
  split; [exact H1 |]. split; [exact H2 |].
  exact (proj1 (proj2 (identifiers_follow_draws _ _ H1 H2))).
Defined.

(** C9, as stated, fails: the six draws of [sample_draws] and
    [other_draws] are pairwise distinct UUIDs, and the two requests carry
    the same branch and the same tag. *)
Lemma branch_and_tag_can_repeat :
  Forall uuid.in_range (all_draws sample_draws other_draws)
  /\ NoDup (all_draws sample_draws other_draws)
  /\ EN.call_id_of (fst (fst sample_draws))
     <> EN.call_id_of (fst (fst other_draws))
  /\ EN.branch_of (snd (fst sample_draws)) = "z9hG4bK6fa459ea"
  /\ EN.branch_of (snd (fst other_draws)) = "z9hG4bK6fa459ea"
  /\ EN.tag_of (snd sample_draws) = "16fd2706"
  /\ EN.tag_of (snd other_draws) = "16fd2706"
  /\ ~ identifiers_always_fresh.
Proof.
  assert (HF : Forall uuid.in_range (all_draws sample_draws other_draws))
    by (repeat constructor).
  assert (HN : NoDup (all_draws sample_draws other_draws)).
  { repeat constructor; simpl; intuition discriminate. }
  split; [exact HF |]. split; [exact HN |].
  split; [vm_compute; discriminate |].
  repeat (split; [reflexivity |]).
  intros H. destruct (H sample_draws other_draws HF HN) as (_ & Hb & _).
  apply Hb. reflexivity.
Qed.

(* ===================================================================== *)
(** ** Further properties of the code *)
(* ===================================================================== *)

Lemma new_events_app w d l : new_events w (mk_world d (out w ++ l)) = l.
Proof.
  unfold new_events. simpl.
  induction (out w) as [| x xs IH]; simpl; auto.
Qed.

Lemma EN_message_is_built_message target src inp :
  EN_message target src inp
  = EN.create_options_message target EN.TARGET_PORT src EN.SOURCE_PORT
                              (draws inp).
Proof.
  unfold EN_message, Py.encode_utf8.
  apply list_byte_of_string_of_list_byte.
Qed.

Lemma transition_has_no_network_event target new now d :
  filter is_sendto (transition target new now d) = []
  /\ filter is_close (transition target new now d) = [].
Proof.
  unfold transition. destruct (status_eqb _ _); split; reflexivity.
Qed.

(** X1. One run of [send_options] sends at most one datagram.  When the
    socket was created and [sendto] returned, what left is exactly the
    bytes built by [create_options_message] (decoding them and encoding them
    again changes nothing), addressed to the target on port 5060; on every
    other path nothing is sent. *)
Theorem datagram_sent_once (target_ip src : string) (inp : probe_input)
    (w : world) :
  filter is_sendto
         (new_events w (snd (EN.send_options target_ip src inp w)))
  = if datagram_left (net inp)
    then [Sendto (EN.create_options_message target_ip EN.TARGET_PORT src
                                            EN.SOURCE_PORT (draws inp))
                 target_ip 5060]
    else [].
Proof.
  rewrite EN_send_options_run. cbn [snd]. rewrite new_events_app.
  rewrite filter_app.
  rewrite (proj1 (transition_has_no_network_event _ _ _ _)), app_nil_r.
  rewrite EN_message_is_built_message.
  unfold probe_events, datagram_left.
  destruct (socket.on_socket (net inp)); [reflexivity |].
  destruct (socket.on_sendto (net inp)); reflexivity.
Qed.

(** X2. The socket of a run is closed exactly once on every path on which
    it was created, whether the run then timed out, failed to send, got a
    foreign or unreadable datagram, or succeeded; when [socket.socket]
    itself raised, nothing is closed. *)
Theorem socket_closed_on_every_path (target_ip src : string)
    (inp : probe_input) (w : world) :
  filter is_close
         (new_events w (snd (EN.send_options target_ip src inp w)))
  = if socket.created (net inp) then [SockClose] else [].
Proof.
  rewrite EN_send_options_run. cbn [snd]. rewrite new_events_app.
  rewrite filter_app.
  rewrite (proj2 (transition_has_no_network_event _ _ _ _)), app_nil_r.
  unfold probe_events, socket.created.
  destruct (socket.on_socket (net inp)); [reflexivity |].
  destruct (socket.on_sendto (net inp)); reflexivity.
Qed.

Lemma dict_keys_set {V} k (v : V) d :
  Dict.keys (Dict.set k v d)
  = match Dict.get k d with
    | Some _ => Dict.keys d
    | None => (Dict.keys d ++ [k])%list
    end.
Proof.
  unfold Dict.keys. induction d as [| [k' v'] d IH]; simpl; [reflexivity |].
  destruct (String.eqb k k') eqn:E; simpl; [reflexivity |].
  rewrite IH. now destruct (Dict.get k d).
Qed.

(** X3. What one run of [send_options] does to the dictionary.  The
    records of the other targets are never touched.  When the run's status
    equals the stored one (['unknown'] for a target without a record) the
    dictionary stays as it is.  Otherwise the target's record becomes the
    run's status with the time read, in its old place if it had one and at
    the end if the target had no record. *)
Theorem run_writes_only_its_record (target_ip src : string)
    (inp : probe_input) (w : world) :
  let d := phone_status w in
  let d' := phone_status (snd (EN.send_options target_ip src inp w)) in
  let new := classify target_ip (observe (net inp)) in
  (forall other, other <> target_ip -> Dict.get other d' = Dict.get other d)
  /\ (if status_eqb new (status_of target_ip d)
      then d' = d
      else Dict.get target_ip d' = Some (mk_info new (Some (change_time inp)))
           /\ Dict.keys d'
              = match Dict.get target_ip d with
                | Some _ => Dict.keys d
                | None => (Dict.keys d ++ [target_ip])%list
                end).
Proof.
  intros d d' new. subst d'. rewrite EN_send_options_run. cbn [snd].
  fold new. unfold apply_outcome. cbn [phone_status]. fold d.
  destruct (status_eqb new (status_of target_ip d)); split; auto.
  - intros other H. now apply dict_get_set_other.
  - split; [apply dict_get_set_same | apply dict_keys_set].
Qed.

Lemma status_of_other_run ip t new now d :
  t <> ip -> status_of ip (apply_outcome t new now d) = status_of ip d.
Proof.
  intros H. unfold apply_outcome.
  destruct (status_eqb _ _); [reflexivity |].
  apply status_of_set_other. congruence.
Qed.

Lemma status_kept_by_other_runs src w ip h :
  ~ In ip (map fst h) ->
  status_of ip (store_after src w h) = status_of ip (phone_status w).
Proof.
  induction h as [| r h IH] using rev_ind; [reflexivity |].
  rewrite map_app, in_app_iff, store_after_snoc. intros H.
  rewrite status_of_other_run.
  - apply IH. tauto.
  - intros E. apply H. right. now left.
Qed.

(** X4. The stored status follows the single most recent probe of the
    target: whatever the earlier history, after a run for [ip] and any
    number of runs for other targets, the status of [ip] is the
    classification of that run. *)
Theorem latest_probe_decides (src : string) (w : world)
    (pre post : list (string * probe_input)) (ip : string)
    (inp : probe_input) :
  ~ In ip (map fst post) ->
  status_of ip (store_after src w (pre ++ (ip, inp) :: post)%list)
  = classify ip (observe (net inp)).
Proof.
  intros H.
  change (pre ++ (ip, inp) :: post)%list
    with (pre ++ [(ip, inp)] ++ post)%list.
  rewrite app_assoc, store_after_app, status_kept_by_other_runs by assumption.
  fold (store_after src w (pre ++ [(ip, inp)])%list).
  rewrite store_after_snoc. apply status_after_own_run.
Qed.

Lemma latest_probe_decides_witness :
  ~ In "172.16.31.144"
       (map fst [("192.168.13.101", sample_probe net_timeout 7)])
  /\ status_of "172.16.31.144"
       (store_after "192.168.1.100" (startup [])
          [("172.16.31.144", sample_probe net_timeout 5);
           ("172.16.31.144",
            sample_probe (net_reply "172.16.31.144" "SIP/2.0 200 OK") 6);
           ("192.168.13.101", sample_probe net_timeout 7)])
     = ok.
Proof.
  assert (H : ~ In "172.16.31.144"
                   (map fst [("192.168.13.101", sample_probe net_timeout 7)])).
  { simpl. intros [E | []]. discriminate. }
  split; [exact H |].
  exact (latest_probe_decides "192.168.1.100" (startup [])
           [("172.16.31.144", sample_probe net_timeout 5)]
           [("192.168.13.101", sample_probe net_timeout 7)]
           "172.16.31.144"
           (sample_probe (net_reply "172.16.31.144" "SIP/2.0 200 OK") 6) H).
Defined.

(** *** The order of the threads *)

Lemma dict_set_comm {V} k1 k2 (v1 v2 : V) d :
  k1 <> k2 -> Dict.get k1 d <> None -> Dict.get k2 d <> None ->
  Dict.set k1 v1 (Dict.set k2 v2 d) = Dict.set k2 v2 (Dict.set k1 v1 d).
Proof.
  intros Hne. induction d as [| [k v] d IH]; simpl; [congruence |].
  destruct (String.eqb_spec k1 k) as [-> | H1];
    destruct (String.eqb_spec k2 k) as [-> | H2]; try congruence; simpl.
  - intros _ _. rewrite String.eqb_refl.
    destruct (String.eqb_spec k2 k); congruence.
  - intros _ _. rewrite String.eqb_refl.
    destruct (String.eqb_spec k1 k); congruence.
  - intros G1 G2.
    destruct (String.eqb_spec k1 k); [congruence |].
    destruct (String.eqb_spec k2 k); [congruence |].
    now rewrite IH.
Qed.

Lemma dict_get_in_keys {V} k (d : Dict.t V) :
  Dict.get k d <> None <-> In k (Dict.keys d).
Proof.
  unfold Dict.keys. induction d as [| [k' v] d IH]; simpl; [tauto |].
  destruct (String.eqb_spec k k') as [-> | H].
  - split; [auto | discriminate].
  - rewrite IH. split; [auto | intros [E | G]; congruence].
Qed.

Lemma apply_outcome_keeps t new now d :
  status_eqb new (status_of t d) = true -> apply_outcome t new now d = d.
Proof. unfold apply_outcome. now intros ->. Qed.

Lemma apply_outcome_sets t new now d :
  status_eqb new (status_of t d) = false ->
  apply_outcome t new now d = Dict.set t (mk_info new (Some now)) d.
Proof. unfold apply_outcome. now intros ->. Qed.

Lemma registered_stays_registered k t new now d :
  Dict.get k d <> None -> Dict.get k (apply_outcome t new now d) <> None.
Proof.
  intros H. unfold apply_outcome. destruct (status_eqb _ _); [assumption |].
  destruct (String.eqb_spec k t) as [-> | Hne].
  - now rewrite dict_get_set_same.
  - now rewrite dict_get_set_other.
Qed.

Lemma apply_outcome_comm t1 t2 n1 n2 c1 c2 d :
  t1 <> t2 -> Dict.get t1 d <> None -> Dict.get t2 d <> None ->
  apply_outcome t1 n1 c1 (apply_outcome t2 n2 c2 d)
  = apply_outcome t2 n2 c2 (apply_outcome t1 n1 c1 d).
Proof.
  intros Hne G1 G2.
  destruct (status_eqb n1 (status_of t1 d)) eqn:A;
    destruct (status_eqb n2 (status_of t2 d)) eqn:B.
  - rewrite (apply_outcome_keeps t2), (apply_outcome_keeps t1) by assumption.
    now rewrite (apply_outcome_keeps t2).
  - rewrite (apply_outcome_keeps t1 n1 c1 d) by assumption.
    rewrite (apply_outcome_keeps t1); [reflexivity |].
    rewrite status_of_other_run; [assumption | congruence].
  - rewrite (apply_outcome_keeps t2 n2 c2 d) by assumption.
    rewrite (apply_outcome_keeps t2); [reflexivity |].
    rewrite status_of_other_run; [assumption | congruence].
  - rewrite (apply_outcome_sets t2 n2 c2 d), (apply_outcome_sets t1 n1 c1 d)
      by assumption.
    rewrite !apply_outcome_sets.
    + now apply dict_set_comm.
    + rewrite status_of_set_other; [assumption | congruence].
    + rewrite status_of_set_other; [assumption | congruence].
Qed.

Lemma store_after_cons src w r h :
  store_after src w (r :: h) = store_after src (after_probe src w r) h.
Proof. reflexivity. Qed.

Lemma store_after_permutation src h h' :
  Permutation h h' ->
  forall w,
    NoDup (map fst h) ->
    (forall r, In r h -> Dict.get (fst r) (phone_status w) <> None) ->
    store_after src w h = store_after src w h'.
Proof.
  induction 1 as [| x l l' HP IH | x y l | l l' l'' HP1 IH1 HP2 IH2];
    intros w Hnd Hreg.
  - reflexivity.
  - rewrite !store_after_cons. simpl in Hnd. inversion Hnd; subst.
    apply IH; [assumption |].
    intros r Hr. rewrite after_probe_store.
    apply registered_stays_registered. apply Hreg. now right.
  - rewrite !store_after_cons. apply store_after_same_store.
    rewrite !after_probe_store. simpl in Hnd.
    inversion Hnd as [| ? ? Hy Hnd']; subst.
    apply apply_outcome_comm.
    + intros E. apply Hy. left. congruence.
    + apply Hreg. right. now left.
    + apply Hreg. now left.
  - rewrite IH1 by assumption. apply IH2.
    + eapply Permutation_NoDup; [| exact Hnd]. now apply Permutation_map.
    + intros r Hr. apply Hreg. eapply Permutation_in; [| exact Hr].
      now apply Permutation_sym.
Qed.

(** X5. The store a pass leaves does not depend on the order in which its
    threads run: for targets that are pairwise different and all have a
    record, any two orders of the same [send_options] runs leave the same
    dictionary, records and key order alike. *)
Theorem thread_order_is_irrelevant (src : string) (order order' : list string)
    (pf : string -> probe_input) (w : world) :
  Permutation order order' ->
  NoDup order ->
  (forall ip, In ip order -> Dict.get ip (phone_status w) <> None) ->
  phone_status (snd (EN.run_probes src order pf w))
  = phone_status (snd (EN.run_probes src order' pf w)).
Proof.
  intros HP Hnd Hreg. rewrite !EN_run_probes_run. cbn [snd].
  apply (store_after_permutation src).
  - now apply Permutation_map.
  - now rewrite map_map, map_id.
  - intros r Hr. apply in_map_iff in Hr. destruct Hr as (ip & <- & Hin).
    now apply Hreg.
Qed.

Lemma thread_order_is_irrelevant_witness :
  Permutation EN.TARGET_IPS (rev EN.TARGET_IPS)
  /\ NoDup EN.TARGET_IPS
  /\ phone_status
       (snd (EN.run_probes "192.168.1.100" EN.TARGET_IPS (scenario_probe 100)
                           (startup [])))
     = phone_status
         (snd (EN.run_probes "192.168.1.100" (rev EN.TARGET_IPS)
                             (scenario_probe 100) (startup []))).
Proof.
  assert (HP : Permutation EN.TARGET_IPS (rev EN.TARGET_IPS))
    by apply Permutation_rev.
  assert (Hnd : NoDup EN.TARGET_IPS).
  { repeat constructor; simpl; intuition discriminate. }
  split; [exact HP |]. split; [exact Hnd |].
  apply (thread_order_is_irrelevant "192.168.1.100" EN.TARGET_IPS
           (rev EN.TARGET_IPS) (scenario_probe 100) (startup []) HP Hnd).
  intros ip [<- | [<- | []]]; discriminate.
Defined.

(** *** The keys of the dictionary *)

Lemma keys_kept_by_registered_run t new now d :
  In t (Dict.keys d) -> Dict.keys (apply_outcome t new now d) = Dict.keys d.
Proof.
  intros H. apply dict_get_in_keys in H. unfold apply_outcome.
  destruct (status_eqb _ _); [reflexivity |].
  rewrite dict_keys_set. now destruct (Dict.get t d).
Qed.

Lemma keys_kept_by_registered_runs src w h :
  (forall r, In r h -> In (fst r) (Dict.keys (phone_status w))) ->
  Dict.keys (store_after src w h) = Dict.keys (phone_status w).
Proof.
  induction h as [| r h IH] using rev_ind; intros H; [reflexivity |].
  rewrite store_after_snoc.
  assert (E : Dict.keys (store_after src w h) = Dict.keys (phone_status w)).
  { apply IH. intros r' Hr. apply H. apply in_app_iff. now left. }
  rewrite keys_kept_by_registered_run; [exact E |].
  rewrite E. apply H. apply in_app_iff. right. now left.
Qed.

(** X6. The loop never adds, drops or reorders records: as long as every
    pass probes configured targets only, the keys of [phone_status] after any
    number of passes are the configured targets, in the order of
    [TARGET_IPS]. *)
Theorem records_are_the_configured_targets (R : Z)
    (autodetected : option string) (started : Q)
    (passes : list cycle_input) (w : world) :
  (forall c ip, In c passes -> In ip (finish_order c) ->
                In ip EN.TARGET_IPS) ->
  Dict.keys
    (phone_status (snd (EN.monitor_loop R autodetected started passes w)))
  = EN.TARGET_IPS.
Proof.
  intros H.
  destruct (EN_monitor_loop_run R autodetected started passes w)
    as (last & _ & ->).
  rewrite keys_kept_by_registered_runs; [reflexivity |].
  intros r Hr. apply in_flat_map in Hr. destruct Hr as (c & Hc & Hr).
  unfold runs_of in Hr. apply in_map_iff in Hr.
  destruct Hr as (ip & <- & Hip). exact (H c ip Hc Hip).
Qed.

Lemma records_are_the_configured_targets_witness :
  (forall c ip, In c [first_pass; later_pass] -> In ip (finish_order c) ->
                In ip EN.TARGET_IPS)
  /\ Dict.keys
       (phone_status
          (snd (EN.monitor_loop 3600 None 0 [first_pass; later_pass]
                                (mk_world [] []))))
     = EN.TARGET_IPS.
Proof.
  assert (H : forall c ip, In c [first_pass; later_pass] ->
                           In ip (finish_order c) -> In ip EN.TARGET_IPS).
  { intros c ip [<- | [<- | []]] Hip; exact Hip. }
  split; [exact H |].
  exact (records_are_the_configured_targets 3600%Z None 0
           [first_pass; later_pass] (mk_world [] []) H).
Defined.

(** *** Plain first lines *)

Lemma code_of_ascii (c : ascii) : Py.code (byte_of_ascii c) = N_of_ascii c.
Proof.
  unfold Py.code. apply Byte.to_of_N. symmetry. apply byte_of_ascii_via_N.
Qed.

Lemma encode_app (s1 s2 : string) :
  Py.encode_utf8 (s1 ++ s2) = (Py.encode_utf8 s1 ++ Py.encode_utf8 s2)%list.
Proof.
  unfold Py.encode_utf8, list_byte_of_string.
  induction s1 as [| c s1 IH]; simpl; [reflexivity |]. now rewrite IH.
Qed.

Lemma plain_app (s1 s2 : string) :
  plain (s1 ++ s2) = plain s1 && plain s2.
Proof.
  induction s1 as [| c s1 IH]; simpl; [reflexivity |].
  now rewrite IH, andb_assoc.
Qed.

Lemma decode_plain (s : string) (rest : Py.bytes) :
  plain s = true ->
  Py.decode_utf8_ignore (Py.encode_utf8 s ++ rest)%list
  = s ++ Py.decode_utf8_ignore rest.
Proof.
  unfold Py.encode_utf8, list_byte_of_string.
  induction s as [| c s IH]; simpl; [reflexivity |].
  intros H. apply andb_prop in H. destruct H as [Hc Hs].
  rewrite code_of_ascii.
  unfold plain_char, Py.ord in Hc. apply andb_prop in Hc.
  destruct Hc as [_ Hc]. apply N.ltb_lt in Hc.
  destruct (N.ltb_spec (N_of_ascii c) 128); [| lia].
  unfold Py.chr. rewrite ascii_of_byte_of_ascii. simpl.
  now rewrite IH.
Qed.

Lemma splitlines_plain_char (cur : string) (c : ascii) (r : string) :
  plain_char c = true ->
  Py.splitlines_from cur (String c r) = Py.splitlines_from (Py.snoc cur c) r.
Proof.
  unfold plain_char. intros H. apply andb_prop in H. destruct H as [H1 H2].
  apply N.leb_le in H1. apply N.ltb_lt in H2. cbn [Py.splitlines_from].
  assert (L : Py.is_linebreak1 c = false).
  { unfold Py.is_linebreak1.
    repeat match goal with
           | |- context [(Py.ord c =? ?k)%N] =>
             destruct (N.eqb_spec (Py.ord c) k); [lia |]
           end.
    reflexivity. }
  rewrite L.
  destruct (N.eqb_spec (Py.ord c) 194); [lia |].
  destruct (N.eqb_spec (Py.ord c) 226); [lia |].
  destruct r as [| c2 [| c3 r3]]; reflexivity.
Qed.

Lemma splitlines_plain (s cur r : string) :
  plain s = true ->
  Py.splitlines_from cur (s ++ r) = Py.splitlines_from (cur ++ s) r.
Proof.
  revert cur. induction s as [| c s IH]; intros cur; cbn [append plain].
  - intros _. f_equal. induction cur; simpl; congruence.
  - intros H. apply andb_prop in H. destruct H as [Hc Hs].
    rewrite splitlines_plain_char by assumption. rewrite IH by assumption.
    unfold Py.snoc. now rewrite string_app_assoc.
Qed.

Lemma first_line_plain (line rest : string) :
  plain line = true -> first_line (line ++ CRLF ++ rest) = line.
Proof.
  intros H. unfold first_line, Py.splitlines.
  rewrite splitlines_plain by assumption. reflexivity.
Qed.

(** X7. For a datagram from the target whose first line is printable ASCII
    ended by CR LF, the run is ['ok'] exactly when that line contains
    ["SIP/2.0 200 OK"] somewhere (text before or after it on the line does
    not matter), and ['failed'] otherwise, an empty first line included;
    nothing after the first line plays a part, ill-formed bytes included, nor
    does the source port of the datagram. *)
Theorem first_line_decides (target_ip : string) (msg : Py.bytes)
    (line : string) (rest : Py.bytes) (port : Z) (w : world) :
  plain line = true ->
  fst (EN.probe target_ip msg
         (net_answer (Py.encode_utf8 (line ++ CRLF) ++ rest)%list target_ip
                     port)
         w)
  = Return (if Py.contains "SIP/2.0 200 OK" line then ok else failed).
Proof.
  intros H. rewrite EN_probe_run. cbn [fst]. f_equal.
  unfold observe, net_answer, classify. cbn.
  rewrite String.eqb_refl. cbn [negb].
  unfold success_line. rewrite encode_app, <- app_assoc.
  rewrite decode_plain by assumption.
  change (Py.decode_utf8_ignore (Py.encode_utf8 CRLF ++ rest)%list)
    with (CRLF ++ Py.decode_utf8_ignore rest).
  rewrite first_line_plain by assumption.
  now destruct (Py.contains "SIP/2.0 200 OK" line).
Qed.

Lemma first_line_decides_witness :
  plain "SIP/2.0 200 OKAY" = true
  /\ fst (EN.probe "172.16.31.144" []
            (net_answer (Py.encode_utf8 ("SIP/2.0 200 OKAY" ++ CRLF)
                         ++ [xff; xfe])%list
                        "172.16.31.144" 40000)
            (startup []))
     = Return ok.
Proof.
  split; [reflexivity |].
  exact (first_line_decides "172.16.31.144" [] "SIP/2.0 200 OKAY"
           [xff; xfe]%list 40000 (startup []) eq_refl).
Defined.

(** X8. An ill-formed lead byte at the front of a datagram (a lone
    continuation byte, [C0], [C1], or [F5] and above) is dropped by the
    decoding: the run is classified as if the datagram began after it. *)
Theorem stray_lead_byte_is_ignored (target_ip : string) (msg : Py.bytes)
    (b : byte) (data : Py.bytes) (ip : string) (port : Z) (w : world) :
  ((128 <= Py.code b < 194)%N \/ (245 <= Py.code b)%N) ->
  fst (EN.probe target_ip msg (net_answer (b :: data) ip port) w)
  = fst (EN.probe target_ip msg (net_answer data ip port) w).
Proof.
  intros H. rewrite !EN_probe_run. cbn [fst]. f_equal.
  unfold observe, net_answer, classify. cbn [socket.on_socket
    socket.on_sendto socket.on_settimeout socket.on_recvfrom].
  unfold success_line.
  replace (Py.decode_utf8_ignore (b :: data))
    with (Py.decode_utf8_ignore data); [reflexivity |].
  cbn [Py.decode_utf8_ignore].
  destruct (N.ltb_spec (Py.code b) 128); [lia |].
  destruct (N.ltb_spec (Py.code b) 194); [reflexivity |].
  destruct (N.ltb_spec (Py.code b) 224); [lia |].
  destruct (N.ltb_spec (Py.code b) 240); [lia |].
  destruct (N.ltb_spec (Py.code b) 245); [lia |].
  reflexivity.
Qed.

Lemma stray_lead_byte_is_ignored_witness :
  ((128 <= Py.code xff < 194)%N \/ (245 <= Py.code xff)%N)
  /\ fst (EN.probe "172.16.31.144" []
            (net_answer (xff :: Py.encode_utf8 "SIP/2.0 200 OK")
                        "172.16.31.144" 5060)
            (startup []))
     = Return ok.
Proof.
  assert (H : (128 <= Py.code xff < 194)%N \/ (245 <= Py.code xff)%N).
  { right. vm_compute. discriminate. }
  split; [exact H |].
  rewrite (stray_lead_byte_is_ignored "172.16.31.144" [] xff
             (Py.encode_utf8 "SIP/2.0 200 OK") "172.16.31.144" 5060
             (startup []) H).
  reflexivity.
Defined.

(** *** The report *)

Lemma prefix_app (s t : string) : String.prefix s (s ++ t) = true.
Proof.
  induction s as [| c s IH]; simpl; [now destruct t |].
  destruct (ascii_dec c c); [exact IH | congruence].
Qed.

Lemma prefix_app3 (a b c t : string) :
  String.prefix (a ++ b ++ c) (a ++ b ++ c ++ t) = true.
Proof.
  replace (a ++ b ++ c ++ t) with ((a ++ b ++ c) ++ t)
    by now rewrite !string_app_assoc.
  apply prefix_app.
Qed.

(** X9. The report has one line per record whose state is ['failed'], in
    the order of the dictionary, and each line begins with its target; a
    record that is ['ok'] or ['unknown'] never gets a line.  This holds for
    the English and for the Russian script. *)
Theorem report_lists_failed_targets (strftime : Q -> string) (now : Q)
    (d : Dict.t status_info) :
  Forall2 (fun item line =>
             String.prefix ("- " ++ fst item ++ ": unavailable") line = true)
          (failed_items d) (EN.failed_phones_report_lines strftime now d)
  /\ Forall2 (fun item line =>
                String.prefix ("- " ++ fst item ++ ": недоступен") line
                = true)
             (failed_items d)
             (RU.failed_phones_report_lines strftime now d).
Proof.
  unfold failed_items, EN.failed_phones_report_lines,
    RU.failed_phones_report_lines, Dict.items.
  split; induction d as [| [ip info] d IH]; cbn [filter flat_map snd];
    try constructor.
  - unfold EN.report_line at 1.
    destruct (status_eqb (state info) failed); [| exact IH].
    destruct (truthy_time (since info)); constructor; try exact IH;
      cbn [fst].
    + change ("- " ++ ip ++ ": unavailable since " ++ ?x)
        with ("- " ++ ip ++ ": unavailable" ++ " since " ++ x).
      apply prefix_app3.
    + change ("- " ++ ip ++ ": unavailable (exact failure time unknown)")
        with ("- " ++ ip ++ ": unavailable"
              ++ " (exact failure time unknown)").
      apply prefix_app3.
  - unfold RU.report_line at 1.
    destruct (status_eqb (state info) failed); [| exact IH].
    destruct (truthy_time (since info)); constructor; try exact IH;
      cbn [fst].
    + change ("- " ++ ip ++ ": недоступен с " ++ ?x)
        with ("- " ++ ip ++ ": недоступен" ++ " с " ++ x).
      apply prefix_app3.
    + change ("- " ++ ip ++ ": недоступен (точное время сбоя неизвестно)")
        with ("- " ++ ip ++ ": недоступен"
              ++ " (точное время сбоя неизвестно)").
      apply prefix_app3.
Qed.

(** X10. In every store reached from the startup initialization, a
    ['failed'] record carries the time it failed, so its report line shows
    the duration; the line "exact failure time unknown" can only appear when
    that time reads as zero (the truth test on [failed_since]). *)
Theorem failed_record_has_its_time (src : string) (tr : list event)
    (h : list (string * probe_input)) (ip : string) (rec : status_info)
    (strftime : Q -> string) (now : Q) :
  Dict.get ip (store_after src (startup tr) h) = Some rec ->
  state rec = failed ->
  exists t,
    since rec = Some t
    /\ EN.report_line strftime now (ip, rec)
       = [if Qeq_bool t 0 then EN_line_without_time ip
          else EN_line_with_duration strftime now ip t].
Proof.
  intros Hget Hst.
  pose proof (store_invariant src tr h ip rec Hget) as Hinv.
  destruct rec as [st [t |]]; simpl in *.
  - exists t. split; [reflexivity |]. subst st.
    unfold EN.report_line. simpl. now destruct (Qeq_bool t 0).
  - assert (st = unknown) by tauto. congruence.
Qed.

Lemma failed_record_has_its_time_witness :
  Dict.get "192.168.13.101"
    (store_after "192.168.1.100" (startup []) (runs_of first_pass))
  = Some (mk_info failed (Some 100))
  /\ exists t,
      Some 100 = Some t
      /\ EN.report_line (fun _ => "1970-01-01 00:01:40") 3700
           ("192.168.13.101", mk_info failed (Some 100))
         = [if Qeq_bool t 0 then EN_line_without_time "192.168.13.101"
            else EN_line_with_duration (fun _ => "1970-01-01 00:01:40") 3700
                                       "192.168.13.101" t].
Proof.
  split; [reflexivity |].
  exact (failed_record_has_its_time "192.168.1.100" []
           (runs_of first_pass) "192.168.13.101" (mk_info failed (Some 100))
           (fun _ => "1970-01-01 00:01:40") 3700 eq_refl eq_refl).
Defined.

(** *** The trace of the probes *)

Lemma after_probe_trace src w r :
  exists l,
    out (after_probe src w r) = (out w ++ l)%list
    /\ forallb is_probe_event l = true.
Proof.
  unfold after_probe. rewrite EN_send_options_run. cbn [snd out].
  eexists; split; [reflexivity |].
  rewrite forallb_app. apply andb_true_intro. split.
  - unfold probe_events.
    destruct (socket.on_socket _); [reflexivity |].
    destruct (socket.on_sendto _); reflexivity.
  - unfold transition. destruct (status_eqb _ _); reflexivity.
Qed.

Lemma after_probes_trace src w h :
  exists l,
    out (after_probes src w h) = (out w ++ l)%list
    /\ forallb is_probe_event l = true.
Proof.
  induction h as [| r h IH] using rev_ind.
  - exists []. split; [now rewrite app_nil_r | reflexivity].
  - rewrite after_probes_snoc. destruct IH as (l & E & F).
    destruct (after_probe_trace src (after_probes src w h) r)
      as (l' & E' & F').
    exists (l ++ l')%list. rewrite E', E, <- app_assoc.
    split; [reflexivity |]. rewrite forallb_app. now rewrite F, F'.
Qed.

Lemma probe_events_are_no_sink_events l :
  forallb is_probe_event l = true -> existsb is_sink_event l = false.
Proof.
  induction l as [| ev l IH]; simpl; [reflexivity |].
  intros H. apply andb_prop in H. destruct H as [He Hl].
  rewrite (IH Hl), orb_false_r.
  destruct ev as [[] | | | | | |]; try reflexivity; discriminate.
Qed.

Lemma sleep_events_are_no_sink_events c :
  existsb is_sink_event (sleep_events c) = false.
Proof. unfold sleep_events. now destruct (Qlt_le_dec _ _). Qed.

(** X11. A pass of the Russian script calls the sinks exactly when the
    report is due and some record is ['failed'] in the dictionary as the
    probes of this same pass left it; a target that failed in this pass is
    therefore reported in this pass.  The new [last_report_time] is the
    reading of the check when the report was due, and the old one
    otherwise. *)
Theorem RU_pass_reports_fresh_statuses (R : Z) (src : string)
    (c : cycle_input) (last : Q) (w : world) :
  existsb is_sink_event (new_events w (snd (RU.cycle R src c last w)))
  = RU.report_due R (current_time c) last
    && some_failed (store_after src w (runs_of c))
  /\ fst (RU.cycle R src c last w)
     = Return (if RU.report_due R (current_time c) last
               then current_time c else last).
Proof.
  rewrite RU_cycle_run. cbn [fst snd]. split; [| reflexivity].
  destruct (after_probes_trace src w (runs_of c)) as (l & E & F).
  rewrite E, <- app_assoc, new_events_app, !existsb_app.
  rewrite (probe_events_are_no_sink_events l F).
  rewrite sleep_events_are_no_sink_events, orb_false_r. cbn [orb].
  apply (proj1 (proj2 (proj2
           (RU_report_follows_policy R c last
              (after_probes src w (runs_of c)))))).
Qed.

(** *** Passes without a report *)

Lemma RU_report_events_when_not_due R c last d :
  RU.report_due R (current_time c) last = false ->
  RU_report_events R c last d = [].
Proof. unfold RU_report_events. now intros ->. Qed.

Lemma RU_cycles_without_report R src passes last w :
  Forall (fun c => RU.report_due R (current_time c) last = false) passes ->
  exists l,
    RU.cycles R src passes last w
    = (Return last, mk_world (store_after src w (flat_map runs_of passes))
                             (out w ++ l))
    /\ existsb is_sink_event l = false.
Proof.
  revert w. induction passes as [| c rest IH]; intros w H.
  - exists []. simpl. unfold ret, store_after. simpl.
    now rewrite app_nil_r, world_eta.
  - inversion H as [| ? ? Hc Hrest]; subst.
    cbn [RU.cycles]. unfold bind. rewrite RU_cycle_run.
    change (EN.report_due R (current_time c) last)
      with (RU.report_due R (current_time c) last).
    rewrite Hc. cbn zeta.
    rewrite RU_report_events_when_not_due by assumption. cbn [app].
    destruct (after_probes_trace src w (runs_of c)) as (l1 & E1 & F1).
    match goal with
    | |- context [RU.cycles R src rest last ?w1] =>
      destruct (IH w1 Hrest) as (l2 & E2 & F2); rewrite E2
    end.
    cbn [phone_status out]. rewrite E1.
    exists (l1 ++ sleep_events c ++ l2)%list. split.
    + f_equal. f_equal.
      * cbn [flat_map]. rewrite store_after_app.
        now apply store_after_same_store.
      * now rewrite <- !app_assoc.
    + rewrite !existsb_app, F2, sleep_events_are_no_sink_events.
      now rewrite (probe_events_are_no_sink_events l1 F1).
Qed.

(** X12. While no pass reaches the report interval, counted from the
    start of the loop, the Russian script calls no sink at all, whatever
    the states of the targets, and [last_report_time] stays the starting
    time; the probing itself goes on as usual. *)
Theorem RU_silent_before_the_interval (R : Z) (autodetected : option string)
    (started : Q) (passes : list cycle_input) (w : world) :
  Forall (fun c => (current_time c - started < inject_Z R)%Q) passes ->
  fst (RU.monitor_loop R autodetected started passes w) = Return started
  /\ existsb is_sink_event
       (new_events w (snd (RU.monitor_loop R autodetected started passes w)))
     = false
  /\ phone_status (snd (RU.monitor_loop R autodetected started passes w))
     = store_after (RU.source_ip_actual autodetected) (startup (out w))
                   (flat_map runs_of passes).
Proof.
  intros H. unfold RU.monitor_loop, bind, write_status.
  destruct (RU_cycles_without_report R (RU.source_ip_actual autodetected)
              passes started (mk_world RU.initial_status (out w)))
    as (l & E & F).
  - eapply Forall_impl; [| exact H]. intros c Hc. cbv beta in Hc.
    unfold RU.report_due.
    destruct (Qle_bool (inject_Z R) (current_time c - started)) eqn:B;
      [| reflexivity].
    apply Qle_bool_iff in B. exfalso.
    exact (Qlt_not_le _ _ Hc B).
  - rewrite E. cbn [fst snd out phone_status].
    rewrite new_events_app. auto.
Qed.

Lemma RU_silent_before_the_interval_witness :
  Forall (fun c => (current_time c - 0 < inject_Z 3600)%Q) [first_pass]
  /\ fst (RU.monitor_loop 3600 None 0 [first_pass] (mk_world [] []))
     = Return 0.
Proof.
  assert (H : Forall (fun c => (current_time c - 0 < inject_Z 3600)%Q)
                     [first_pass]).
  { repeat constructor. }
  split; [exact H |].
  exact (proj1 (RU_silent_before_the_interval 3600%Z None 0 [first_pass]
                  (mk_world [] []) H)).
Defined.

(** *** The two sinks *)

(** X13. [notify_alert] of the Russian script tries each sink once and
    independently: the Telegram request is made exactly when the message is
    non-empty, the credentials are configured and [requests.post] returns,
    whether or not the e-mail went out; and the e-mail session completes
    exactly when SMTP does not raise, whatever happens to Telegram. *)
Theorem sinks_are_independent (o : outside) (subject body message : string)
    (w : world) :
  let l := new_events w
             (snd (RU.notify_alert o subject body (Some message) w)) in
  filter is_http_post l
  = (if Py.truthy message && telegram_configured (telegram_cfg o)
     then match http o with
          | telegram_utils.Response _ _ =>
            [HttpPost (match telegram_utils.TELEGRAM_CHAT_ID (telegram_cfg o)
                       with Some c => c | None => "" end) message]
          | telegram_utils.HttpRaises _ => []
          end
     else [])
  /\ filter is_sendmail l
     = match smtp o with
       | email_utils.Delivered =>
         [Sendmail (email_utils.with_tls_and_login (mail_cfg o))
                   (email_utils.SENDER_EMAIL (mail_cfg o))
                   (email_utils.RECIPIENT_EMAIL (mail_cfg o)) subject body]
       | email_utils.SmtpRaises _ => []
       end.
Proof.
  intros l. subst l. rewrite RU_notify_alert_run. cbn [snd].
  rewrite new_events_app. unfold RU_notify_events.
  rewrite !filter_app. unfold email_events, telegram_events.
  destruct (smtp o); destruct (Py.truthy message);
    destruct (telegram_configured (telegram_cfg o));
    destruct (http o); split; reflexivity.
Qed.

(** X14. The Telegram sink never makes a request with missing, empty or
    placeholder credentials: a request appears in its trace only if both
    the token and the chat id are set, non-empty, and different from
    ["YOUR_BOT_TOKEN"] and ["YOUR_CHAT_ID"]; and then it goes to that chat
    id with the message unchanged. *)
Theorem telegram_needs_credentials (cfg : telegram_utils.settings)
    (http : telegram_utils.http_outcome) (message : string) (w : world)
    (chat text : string) :
  In (HttpPost chat text)
     (new_events w
        (snd (telegram_utils.send_telegram_alert cfg http message w))) ->
  text = message
  /\ telegram_utils.TELEGRAM_CHAT_ID cfg = Some chat
  /\ chat <> "" /\ chat <> "YOUR_CHAT_ID"
  /\ exists token,
      telegram_utils.TELEGRAM_BOT_TOKEN cfg = Some token
      /\ token <> "" /\ token <> "YOUR_BOT_TOKEN".
Proof.
  rewrite send_telegram_alert_run. cbn [snd]. rewrite new_events_app.
  unfold telegram_events, telegram_configured, truthy_opt, opt_eqb.
  destruct cfg as [[token |] [chat' |]]; cbn;
    try (intros [H | []]; discriminate).
  - destruct (Py.truthy token) eqn:T, (Py.truthy chat') eqn:C,
      (String.eqb_spec token "YOUR_BOT_TOKEN"),
      (String.eqb_spec chat' "YOUR_CHAT_ID"); cbn;
      try (intros [H | []]; discriminate).
    destruct http as [code body | e]; cbn.
    + intros [H | [H | []]]; [| destruct (code =? 200)%Z; discriminate].
      injection H as <- <-.
      repeat split; auto.
      * intros ->. discriminate.
      * exists token. repeat split; auto. intros ->. discriminate.
    + intros [H | []]. discriminate.
  - destruct (Py.truthy token); cbn; intros [H | []]; discriminate.
Qed.

Lemma telegram_needs_credentials_witness :
  In (HttpPost "42" "down")
     (new_events (startup [])
        (snd (telegram_utils.send_telegram_alert
                (telegram_cfg working_outside) (http working_outside) "down"
                (startup []))))
  /\ telegram_utils.TELEGRAM_CHAT_ID (telegram_cfg working_outside)
     = Some "42".
Proof.
  assert (H : In (HttpPost "42" "down")
                 (new_events (startup [])
                    (snd (telegram_utils.send_telegram_alert
                            (telegram_cfg working_outside)
                            (http working_outside) "down" (startup [])))))
    by (left; reflexivity).
  split; [exact H |].
  exact (proj1 (proj2 (telegram_needs_credentials _ _ _ _ _ _ H))).
Defined.



(** *** The sleep of a pass *)

Lemma probe_events_hold_no_sleep l q :
  forallb is_probe_event l = true -> ~ In (Sleep q) l.
Proof.
  induction l as [| ev l IH]; simpl; [tauto |].
  intros H. apply andb_prop in H. destruct H as [He Hl].
  intros [E | Hin]; [subst ev; discriminate | exact (IH Hl Hin)].
Qed.

(** X16. [time.sleep] is never called with a zero or negative time: a
    pass sleeps at most once, and then for exactly [INTERVAL - elapsed],
    which is positive; when the clock did not run backwards during the
    probes, that is at most [INTERVAL]. *)
Theorem sleep_is_positive_and_bounded (R : Z) (src : string)
    (c : cycle_input) (last : Q) (w : world) (q : Q) :
  In (Sleep q) (new_events w (snd (EN.cycle R src c last w))) ->
  q = EN.INTERVAL - (joined_time c - start_time c)
  /\ 0 < q
  /\ (start_time c <= joined_time c -> q <= EN.INTERVAL)
  /\ filter is_sleep (new_events w (snd (EN.cycle R src c last w)))
     = [Sleep q].
Proof.
  rewrite EN_cycle_run. cbn [snd].
  destruct (after_probes_trace src w (runs_of c)) as (l & E & F).
  rewrite E, <- app_assoc, new_events_app. intros Hin.
  assert (NS : filter is_sleep l = []).
  { clear - F. induction l as [| ev l IH]; [reflexivity |].
    simpl in F. apply andb_prop in F. destruct F as [He Hl]. simpl.
    rewrite (IH Hl). now destruct ev as [[] | | | | | |]. }
  apply in_app_iff in Hin. destruct Hin as [Hin | Hin];
    [exfalso; exact (probe_events_hold_no_sleep l q F Hin) |].
  rewrite filter_app, NS. cbn [app].
  rewrite sleep_events_cases in *.
  destruct (Qlt_le_dec (joined_time c - start_time c) EN.INTERVAL)
    as [Hlt | Hge]; [| destruct Hin].
  destruct Hin as [Hq | []]. injection Hq as <-.
  split; [reflexivity |]. split; [| split; [| reflexivity]].
  - unfold EN.INTERVAL in *. lra.
  - unfold EN.INTERVAL. lra.
Qed.

Lemma sleep_is_positive_and_bounded_witness :
  In (Sleep (EN.INTERVAL - (100 - 98)))
     (new_events (startup [])
        (snd (EN.cycle 3600 "192.168.1.100" first_pass 0 (startup []))))
  /\ 0 < EN.INTERVAL - (100 - 98).
Proof.
  assert (H : In (Sleep (EN.INTERVAL - (100 - 98)))
                 (new_events (startup [])
                    (snd (EN.cycle 3600 "192.168.1.100" first_pass 0
                                   (startup []))))).
  { vm_compute. do 6 right. left. reflexivity. }
  split; [exact H |].
  exact (proj1 (proj2 (sleep_is_positive_and_bounded 3600%Z "192.168.1.100"
                         first_pass 0 (startup []) _ H))).
Defined.

(** *** Edges of the duration *)

Lemma format_02d_two_chars_below_100 (z : Z) :
  (0 <= z < 100)%Z -> String.length (Py.format_02d z) = 2%nat.
Proof.
  intros [H0 H1]. destruct z as [| p | p]; try lia; [reflexivity |].
  repeat (destruct p as [p | p |]; try lia; try reflexivity).
Qed.

Lemma format_02d_negative (z : Z) :
  (z < 0)%Z -> exists rest, Py.format_02d z = String "-" rest.
Proof.
  intros H. unfold Py.format_02d.
  destruct (Z.ltb_spec z 0); [| lia]. eexists. reflexivity.
Qed.

(** X17. The duration string drops the fraction of a second (it depends
    on the whole seconds only); for a duration below one hundred hours it is
    exactly eight characters long; and for a negative duration, as after a
    backward step of the clock, the hours come out negative: the string
    begins with a minus sign. *)
Theorem duration_edges (d d' : Q) :
  (Qfloor d = Qfloor d' -> EN.duration_str d = EN.duration_str d')
  /\ (0 <= d -> d < 360000 -> String.length (EN.duration_str d) = 8%nat)
  /\ (d < 0 -> exists rest, EN.duration_str d = String "-" rest).
Proof.
  rewrite !duration_fields. repeat split.
  - now intros ->.
  - intros H0 H1.
    assert (Z0 : (0 <= Qfloor d)%Z).
    { change 0%Z with (Qfloor 0). now apply Qfloor_resp_le. }
    assert (Z1 : (Qfloor d < 360000)%Z).
    { rewrite Zlt_Qlt. eapply Qle_lt_trans; [apply Qfloor_le | exact H1]. }
    rewrite !string_length_app.
    rewrite format_02d_two_chars_below_100.
    + rewrite !format_02d_two_chars;
        try (apply Z.mod_pos_bound; lia). reflexivity.
    + split; [apply Z.div_pos; lia |].
      apply Z.div_lt_upper_bound; lia.
  - intros H.
    assert (Z1 : (Qfloor d < 0)%Z).
    { rewrite Zlt_Qlt. eapply Qle_lt_trans; [apply Qfloor_le | exact H]. }
    destruct (format_02d_negative (Qfloor d / 3600)) as (rest & E).
    + apply Z.div_lt_upper_bound; lia.
    + rewrite E. eexists. reflexivity.
Qed.

(** *** What is printed when DEBUG is off *)

Lemma printed_app DEBUG l1 l2 :
  printed DEBUG (l1 ++ l2) = (printed DEBUG l1 ++ printed DEBUG l2)%list.
Proof. unfold printed. apply flat_map_app. Qed.

Lemma probe_events_print_nothing l :
  forallb is_probe_event l = true -> printed false l = [].
Proof.
  induction l as [| ev l IH]; [reflexivity |].
  simpl. intros H. apply andb_prop in H. destruct H as [He Hl].
  rewrite (IH Hl). destruct ev as [[] | | | | | |]; try reflexivity;
    discriminate.
Qed.

Lemma sleep_events_print_nothing DEBUG c : printed DEBUG (sleep_events c) = [].
Proof. unfold sleep_events. now destruct (Qlt_le_dec _ _). Qed.

(** X18. Everything the monitor scripts and the e-mail sink print goes
    through [debug_print]: with DEBUG off, a pass of the English script
    prints nothing, and a pass of the Russian script prints nothing but the
    result lines of the Telegram sink, which uses [print]. *)
Theorem quiet_without_debug (R : Z) (src : string) (c : cycle_input)
    (last : Q) (w : world) :
  printed false (new_events w (snd (EN.cycle R src c last w))) = []
  /\ forallb is_telegram_result
       (printed false (new_events w (snd (RU.cycle R src c last w))))
     = true.
Proof.
  rewrite EN_cycle_run, RU_cycle_run. cbn [snd].
  destruct (after_probes_trace src w (runs_of c)) as (l & E & F).
  cbn zeta. rewrite E, <- !app_assoc, !new_events_app, !printed_app.
  rewrite (probe_events_print_nothing l F), sleep_events_print_nothing.
  split; [reflexivity |]. cbn [app]. rewrite app_nil_r.
  unfold RU_report_events.
  destruct (RU.report_due _ _ _); [| reflexivity].
  destruct (RU.failed_phones_report_lines _ _ _) as [| x xs];
    [reflexivity |].
  unfold RU_notify_events. rewrite printed_app.
  unfold email_events, telegram_events.
  destruct (smtp (world_outside c)); cbn;
    destruct (telegram_configured _); cbn; try reflexivity;
      destruct (http (world_outside c)) as [code text | e']; cbn;
        try reflexivity; now destruct (code =? 200)%Z.
Qed.

(** *** The lines of the request *)

Lemma plain_uint (d : Decimal.uint) :
  plain (NilEmpty.string_of_uint d) = true.
Proof. induction d; simpl; auto. Qed.

Lemma plain_str_int (z : Z) : plain (Py.str_int z) = true.
Proof.
  unfold Py.str_int, NilZero.string_of_int, NilZero.string_of_uint.
  destruct (Z.to_int z) as [d | d]; [| cbn [plain]; apply andb_true_intro;
                                       split; [reflexivity |]];
    destruct d; try reflexivity; apply plain_uint.
Qed.

Lemma plain_hex_digit (d : N) : plain_char (uuid.hex_digit d) = true.
Proof.
  unfold uuid.hex_digit. remember (N.to_nat d) as n. clear Heqn.
  do 16 (destruct n as [| n]; [reflexivity |]). reflexivity.
Qed.

Lemma plain_hex (k : nat) (n : N) : plain (uuid.hex k n) = true.
Proof.
  revert n. induction k as [| k IH]; intros n; [reflexivity |].
  cbn [uuid.hex]. rewrite plain_app, IH. cbn [plain].
  now rewrite plain_hex_digit.
Qed.

Lemma plain_substring (s : string) (a b : nat) :
  plain s = true -> plain (String.substring a b s) = true.
Proof.
  revert a b. induction s as [| c s IH]; intros a b H.
  - now destruct a, b.
  - cbn [plain] in H. apply andb_prop in H. destruct H as [Hc Hs].
    destruct a as [| a]; [destruct b as [| b] |]; cbn [String.substring];
      auto.
    cbn [plain]. now rewrite Hc, IH.
Qed.

Lemma plain_uuid_str (u : uuid.t) : plain (uuid.str u) = true.
Proof.
  unfold uuid.str, uuid.hyphenate, Py.slice.
  rewrite !plain_app, !plain_substring by apply plain_hex. reflexivity.
Qed.

Lemma splitlines_line (line rest : string) :
  plain line = true ->
  Py.splitlines_from "" (line ++ CRLF ++ rest)
  = line :: Py.splitlines_from "" rest.
Proof.
  intros H. rewrite splitlines_plain by assumption. reflexivity.
Qed.

Lemma splitlines_crlf_lines (lines : list string) :
  forallb plain lines = true -> Py.splitlines (crlf_lines lines) = lines.
Proof.
  unfold Py.splitlines. induction lines as [| l lines IH]; [reflexivity |].
  cbn [forallb crlf_lines fold_right]. intros H.
  apply andb_prop in H. destruct H as [Hl Hls].
  rewrite splitlines_line by assumption. f_equal. now apply IH.
Qed.

Lemma EN_message_text target_ip target_port source_ip source_port drawn :
  string_of_list_byte
    (EN.create_options_message target_ip target_port source_ip source_port
                               drawn)
  = crlf_lines (EN_request_lines target_ip target_port source_ip source_port
                                 drawn).
Proof.
  destruct drawn as [[u1 u2] u3].
  unfold EN.create_options_message, Py.encode_utf8.
  rewrite string_of_list_byte_of_string.
  unfold EN_request_lines, crlf_lines. cbn [fold_right].
  rewrite !string_app_assoc. reflexivity.
Qed.

(** X19. When the two addresses are printable ASCII, the text of the
    request is exactly twelve lines, each ended by CR LF: the request line,
    the ten headers in their order with the three identifiers in place, and
    the empty line that ends the message; no other line break occurs in
    it. *)
Theorem request_is_twelve_lines (target_ip : string) (target_port : Z)
    (source_ip : string) (source_port : Z)
    (drawn : uuid.t * uuid.t * uuid.t) :
  plain target_ip = true -> plain source_ip = true ->
  Py.splitlines
    (string_of_list_byte
       (EN.create_options_message target_ip target_port source_ip
                                  source_port drawn))
  = EN_request_lines target_ip target_port source_ip source_port drawn
  /\ string_of_list_byte
       (EN.create_options_message target_ip target_port source_ip
                                  source_port drawn)
     = crlf_lines (EN_request_lines target_ip target_port source_ip
                                    source_port drawn).
Proof.
  intros Ht Hs. split; [| apply EN_message_text].
  rewrite EN_message_text. apply splitlines_crlf_lines.
  destruct drawn as [[u1 u2] u3].
  unfold EN_request_lines, EN.branch_of, EN.tag_of, EN.call_id_of, Py.take.
  cbn [forallb].
  rewrite !plain_app, Ht, Hs, !plain_str_int, !plain_substring,
    !plain_uuid_str by apply plain_uuid_str.
  reflexivity.
Qed.

Lemma request_is_twelve_lines_witness :
  plain "172.16.31.144" = true /\ plain "192.168.1.100" = true
  /\ Py.splitlines
       (string_of_list_byte
          (EN.create_options_message "172.16.31.144" 5060 "192.168.1.100"
                                     5084 sample_draws))
     = EN_request_lines "172.16.31.144" 5060 "192.168.1.100" 5084
                        sample_draws.
Proof.
  split; [reflexivity |]. split; [reflexivity |].
  exact (proj1 (request_is_twelve_lines "172.16.31.144" 5060
                  "192.168.1.100" 5084 sample_draws eq_refl eq_refl)).
Defined.

(** *** What the sinks are given *)

(** X20. When the Russian script reports, the e-mail body and the Telegram
    text are built from the same lines, those of the records that are
    ['failed'] at that moment (there is at least one), and the subject
    carries the time stamp of the report; no other e-mail or request leaves
    the report step. *)
Theorem sinks_get_the_same_lines (R : Z) (c : cycle_input) (last : Q)
    (w : world) :
  let lines := RU.failed_phones_report_lines (strftime_local c)
                 (current_time c) (phone_status w) in
  let l := new_events w (snd (RU.report_logic R c last w)) in
  (forall tls sender recipient s b,
      In (Sendmail tls sender recipient s b) l ->
      s = RU_subject c /\ b = RU_body lines /\ lines <> [])
  /\ (forall chat text,
         In (HttpPost chat text) l ->
         text = RU_telegram_msg lines /\ lines <> []).
Proof.
  intros lines l. subst l. rewrite RU_report_logic_run. cbn [snd].
  rewrite new_events_app. unfold RU_report_events. fold lines.
  destruct (RU.report_due _ _ _); [| split; intros; contradiction].
  destruct lines as [| x xs] eqn:L; [split; intros; contradiction |].
  unfold RU_notify_events, email_events, telegram_events.
  split.
  - intros tls sender recipient s b Hin. apply in_app_iff in Hin.
    destruct Hin as [Hin | Hin].
    + destruct (smtp (world_outside c));
        [destruct Hin as [E | [E | []]] | destruct Hin as [E | []]];
        try discriminate.
      injection E as <- <- <- <- <-. repeat split. discriminate.
    + exfalso. destruct (Py.truthy _); [| destruct Hin].
      destruct (telegram_configured _);
        [destruct (http (world_outside c)) |];
        cbn in Hin; intuition discriminate.
  - intros chat text Hin. apply in_app_iff in Hin.
    destruct Hin as [Hin | Hin].
    + exfalso. destruct (smtp (world_outside c)); cbn in Hin;
        intuition discriminate.
    + destruct (Py.truthy _); [| destruct Hin].
      destruct (telegram_configured _);
        [destruct (http (world_outside c)) |];
        cbn in Hin; try (intuition discriminate).
      destruct Hin as [E | [E | []]]; [| discriminate].
      injection E as <- <-. split; [reflexivity | discriminate].
Qed.

(** X21. A target is ['unknown'] exactly until its first probe: in the
    store reached from the startup initialization by any runs, the status of
    a target is ['unknown'] if and only if no run was made for it. *)
Theorem unknown_until_first_probe (src : string) (tr : list event)
    (h : list (string * probe_input)) (ip : string) :
  status_of ip (store_after src (startup tr) h) = unknown
  <-> ~ In ip (map fst h).
Proof.
  split.
  - intros H Hin. exact (probed_target_is_known src (startup tr) h ip Hin H).
  - intros H. destruct (status_of ip (store_after src (startup tr) h)) eqn:E;
      [reflexivity | |]; exfalso; apply H;
        apply (known_status_was_probed src tr); rewrite E; discriminate.
Qed.
